(** * Surya encoder image processor: a shallow embedding

    This development embeds [surya/common/donut/processor.py]
    ([SuryaEncoderImageProcessor]) and states its specification as theorems.

    - Python integers are [Z]; array extents are [nat].
    - A NumPy array is its shape, its dtype and its items read by index.
    - Floating point is IEEE 754 binary32 / binary64 with round-to-nearest-even,
      taken from the standard library's executable [SpecFloat].
    - A raised exception is the [Raise] branch of [result]; a list comprehension
      is [mapM], which stops at the first element that raises. *)

From Stdlib Require Import ZArith List Lia Bool QArith Qabs.
From Stdlib Require Import Floats.SpecFloat.
Import ListNotations.

Local Open Scope Z_scope.

(* ================================================================== *)
(** ** Exceptions *)

Inductive exn : Type :=
| AssertionError
| IndexError
| ValueError
| TypeError
| OverflowError
| cv2_error.

Inductive result (A : Type) : Type :=
| Ok (a : A)
| Raise (e : exn).

Arguments Ok {A} a.
Arguments Raise {A} e.

Definition bind {A B : Type} (m : result A) (k : A -> result B) : result B :=
match m with
| Ok a => k a
| Raise e => Raise e
end.

Notation "x <- m ;; k" := (bind m (fun x => k))
  (at level 61, m at next level, right associativity).
Notation "m ;;; k" := (bind m (fun _ => k))
  (at level 61, right associativity).

(** [assert cond] *)
Definition assert (b : bool) : result unit :=
if b then Ok tt else Raise AssertionError.

(** [[f(x) for x in xs]]: evaluated left to right, the first exception
    aborts the comprehension. *)
Fixpoint mapM {A B : Type} (f : A -> result B) (xs : list A) : result (list B) :=
match xs with
| [] => Ok []
| x :: xs' => y <- f x ;; ys <- mapM f xs' ;; Ok (y :: ys)
end.

(** [for x in xs: body(x)] where the body only raises or passes. *)
Fixpoint forM_ {A : Type} (f : A -> result unit) (xs : list A) : result unit :=
match xs with
| [] => Ok tt
| x :: xs' => f x ;;; forM_ f xs'
end.

(** [xs[i]] for a non-negative literal index. *)
Definition getitem {A : Type} (xs : list A) (i : nat) : result A :=
match nth_error xs i with
| Some x => Ok x
| None => Raise IndexError
end.

(* ================================================================== *)
(** ** Floating point: binary32 and binary64 *)

Module F32.
Definition prec : Z := 24.
Definition emax : Z := 128.
Definition of_Z (n : Z) : spec_float := binary_normalize prec emax n 0 false.
Definition round (x : spec_float) : spec_float :=
match x with
| S754_finite s m e => binary_round prec emax s m e
| _ => x
end.
Definition mul := SFmul prec emax.
Definition sub := SFsub prec emax.
Definition div := SFdiv prec emax.
End F32.

Module F64.
Definition prec : Z := 53.
Definition emax : Z := 1024.
Definition of_Z (n : Z) : spec_float := binary_normalize prec emax n 0 false.
Definition round (x : spec_float) : spec_float :=
match x with
| S754_finite s m e => binary_round prec emax s m e
| _ => x
end.
Definition mul := SFmul prec emax.
Definition sub := SFsub prec emax.
Definition div := SFdiv prec emax.
End F64.

(** A Python number: [int] or [float] (a binary64). *)
Inductive pynum : Type :=
| PyInt (z : Z)
| PyFloat (x : spec_float).

Definition to_f64 (v : pynum) : spec_float :=
match v with
| PyInt z => F64.of_Z z
| PyFloat x => x
end.

Definition to_f32 (v : pynum) : spec_float :=
match v with
| PyInt z => F32.of_Z z
| PyFloat x => F32.round x
end.

(** Whether NumPy can take a Python scalar as a float.  A Python int whose
    nearest binary64 would be an infinity (magnitude from [2^1024 - 2^970]
    on) cannot be converted: NumPy raises [OverflowError]. *)
Definition fits_float (v : pynum) : bool :=
match v with
| PyFloat _ => true
| PyInt z => Z.abs z <? 2 ^ 1024 - 2 ^ 970
end.

(** Python's [a / b] on two ints: true division, a binary64.  Only used
    on literals with a non-zero divisor. *)
Definition py_truediv (a b : Z) : spec_float := F64.div (F64.of_Z a) (F64.of_Z b).

(** The exact rational value of a finite float (0 for the others). *)
Definition SF2Q (x : spec_float) : Q :=
match x with
| S754_finite s m e =>
    let v := match e with
             | Z0 => inject_Z (Zpos m)
             | Zpos p => inject_Z (Zpos m * 2 ^ Zpos p)
             | Zneg p => Qmake (Zpos m) (2 ^ p)
             end in
    if s then Qopp v else v
| _ => 0%Q
end.

(** Truncation toward zero of a finite float (C cast to an integer type). *)
Definition SF2Z_trunc (x : spec_float) : Z :=
match x with
| S754_finite s m e =>
    let v := match e with
             | Zneg p => Z.shiftr (Zpos m) (Zpos p)
             | _ => Z.shiftl (Zpos m) e
             end in
    if s then - v else v
| _ => 0
end.

(* ================================================================== *)
(** ** NumPy arrays *)

Inductive dtype : Type := uint8 | float32 | float64.

Inductive sample : Type :=
| Int (n : Z)
| Flt (x : spec_float).

Record ndarray : Type := mk_ndarray {
  shape : list nat;
  dt : dtype;
  item : list nat -> sample
}.

Definition ndim (a : ndarray) : nat := length (shape a).

(** An index is inside an array of the given shape. *)
Fixpoint in_bounds (sh idx : list nat) : Prop :=
match sh, idx with
| [], [] => True
| d :: sh', i :: idx' => (i < d)%nat /\ in_bounds sh' idx'
| _, _ => False
end.

(** Two arrays are the same array: shape, dtype and every item agree. *)
Definition same_array (a b : ndarray) : Prop :=
shape a = shape b /\ dt a = dt b /\
forall idx, in_bounds (shape a) idx -> item a idx = item b idx.

(** Whether NumPy stores a Python scalar into an array of dtype [d]: a
    Python int outside 0..255 does not go into a [uint8] array, the
    assignment raises [OverflowError]. *)
Definition storable (d : dtype) (v : pynum) : bool :=
match d, v with
| uint8, PyInt z => (0 <=? z) && (z <=? 255)
| _, _ => true
end.

(** The value a storable Python scalar takes in an array of dtype [d]; a
    float stored into [uint8] is truncated.  The pipeline only ever stores
    scalars into float arrays. *)
Definition store (d : dtype) (v : pynum) : sample :=
match d with
| float32 => Flt (to_f32 v)
| float64 => Flt (to_f64 v)
| uint8 => Int ((match v with PyInt z => z | PyFloat x => SF2Z_trunc x end) mod 256)
end.

(** [a.astype(np.float32)] *)
Definition astype_float32 (a : ndarray) : ndarray :=
{| shape := shape a;
   dt := float32;
   item := fun idx => match item a idx with
                      | Int n => Flt (F32.of_Z n)
                      | Flt x => Flt (F32.round x)
                      end |}.

(** [a.astype(np.float64)] *)
Definition astype_float64 (a : ndarray) : ndarray :=
{| shape := shape a;
   dt := float64;
   item := fun idx => match item a idx with
                      | Int n => Flt (F64.of_Z n)
                      | Flt x => Flt (F64.round x)
                      end |}.

(** [a * v] for a float64 array [a] and a Python scalar [v]: the scalar is
    taken as a binary64 and the product is a float64 array.  The product
    exists when the scalar [fits_float]; [process_inner] checks that
    before it multiplies. *)
Definition mul_scalar_f64 (a : ndarray) (v : pynum) : ndarray :=
{| shape := shape a;
   dt := float64;
   item := fun idx => match item a idx with
                      | Int n => Flt (F64.mul (F64.of_Z n) (to_f64 v))
                      | Flt x => Flt (F64.mul x (to_f64 v))
                      end |}.

(** [a.transpose(2, 0, 1)]: needs exactly three axes. *)
Definition transpose_2_0_1 (a : ndarray) : result ndarray :=
match shape a with
| [d0; d1; d2] =>
    Ok {| shape := [d2; d0; d1];
          dt := dt a;
          item := fun idx => match idx with
                             | [c; i; j] => item a [i; j; c]
                             | _ => item a idx
                             end |}
| _ => Raise ValueError
end.

(** [np.flip(m, 1)] on an array with at least two axes. *)
Definition flip_axis1 (m : ndarray) : ndarray :=
match shape m with
| _ :: d1 :: _ =>
    {| shape := shape m;
       dt := dt m;
       item := fun idx => match idx with
                          | i :: j :: rest => item m (i :: (d1 - 1 - j)%nat :: rest)
                          | _ => item m idx
                          end |}
| _ => m
end.

(** [np.flip(m, 0)] *)
Definition flip_axis0 (m : ndarray) : ndarray :=
match shape m with
| d0 :: _ =>
    {| shape := shape m;
       dt := dt m;
       item := fun idx => match idx with
                          | i :: rest => item m ((d0 - 1 - i)%nat :: rest)
                          | _ => item m idx
                          end |}
| _ => m
end.

(** [np.transpose(m, axes_list)] with axes 0 and 1 exchanged. *)
Definition swap_axes01 (m : ndarray) : ndarray :=
match shape m with
| d0 :: d1 :: rest =>
    {| shape := d1 :: d0 :: rest;
       dt := dt m;
       item := fun idx => match idx with
                          | i :: j :: r => item m (j :: i :: r)
                          | _ => item m idx
                          end |}
| _ => m
end.

(** [np.rot90(m, k)] with the default [axes=(0, 1)]: NumPy reduces [k]
    modulo 4; [k = 1] is [transpose(flip(m, 1))], [k = 3] is
    [flip(transpose(m), 1)], [k = 2] flips both axes. *)
Definition np_rot90 (m : ndarray) (k : Z) : result ndarray :=
if (ndim m <? 2)%nat then Raise ValueError
else
  let k := k mod 4 in
  if k =? 0 then Ok m
  else if k =? 2 then Ok (flip_axis1 (flip_axis0 m))
  else if k =? 1 then Ok (swap_axes01 (flip_axis1 m))
  else Ok (flip_axis1 (swap_axes01 m)).

(** [np.pad(a, pad_width, mode="constant", constant_values=v)]: one
    (before, after) pair per axis; a negative width is a [ValueError], a
    fill value the array cannot store is an [OverflowError]. *)
Fixpoint pad_shape (sh : list nat) (pw : list (nat * nat)) : list nat :=
match sh, pw with
| d :: sh', (b, a) :: pw' => (b + d + a)%nat :: pad_shape sh' pw'
| _, _ => []
end.

(** Where an index of the padded array reads from in the source array;
    [None] when it lies in the padding. *)
Fixpoint pad_source (sh : list nat) (pw : list (nat * nat)) (idx : list nat)
  : option (list nat) :=
match sh, pw, idx with
| [], [], [] => Some []
| d :: sh', (b, _) :: pw', i :: idx' =>
    if ((b <=? i) && (i <? b + d))%nat
    then option_map (cons (i - b)%nat) (pad_source sh' pw' idx')
    else None
| _, _, _ => None
end.

Definition np_pad (a : ndarray) (pad_width : list (Z * Z)) (v : pynum)
  : result ndarray :=
if negb (length pad_width =? ndim a)%nat then Raise ValueError
else if existsb (fun p => (fst p <? 0) || (snd p <? 0)) pad_width then Raise ValueError
else if negb (storable (dt a) v) then Raise OverflowError
else
  let pw := map (fun p => (Z.to_nat (fst p), Z.to_nat (snd p))) pad_width in
  Ok {| shape := pad_shape (shape a) pw;
        dt := dt a;
        item := fun idx => match pad_source (shape a) pw idx with
                           | Some src => item a src
                           | None => store (dt a) v
                           end |}.

(* ================================================================== *)
(** ** The libraries the processor calls *)

(** [transformers.image_utils.ChannelDimension] *)
Inductive ChannelDimension : Type := FIRST | LAST.

(** Python's [sh[-k]] for [k >= 1]. *)
Definition getitem_neg {A : Type} (xs : list A) (k : nat) : result A :=
getitem (rev xs) (k - 1).

(** [transformers.image_utils.get_image_size(image, channel_dim)]:
    [(shape[-2], shape[-1])] for channel-first, [(shape[-3], shape[-2])]
    for channel-last. *)
Definition get_image_size (image : ndarray) (channel_dim : ChannelDimension)
  : result (nat * nat) :=
match channel_dim with
| FIRST => h <- getitem_neg (shape image) 2 ;; w <- getitem_neg (shape image) 1 ;; Ok (h, w)
| LAST => h <- getitem_neg (shape image) 3 ;; w <- getitem_neg (shape image) 2 ;; Ok (h, w)
end.

(** [transformers.image_transforms.pad(image, padding, constant_values=v,
    input_data_format=fmt)] in its default constant mode: a zero pair is
    added for the channel axis, one more in front for the batch axis of a
    four-axis array, and the pairs go to [np.pad]. *)
Definition tf_pad (image : ndarray) (padding : (Z * Z) * (Z * Z)) (v : pynum)
  (input_data_format : ChannelDimension) : result ndarray :=
let '(rows, cols) := padding in
let values := match input_data_format with
              | FIRST => [(0, 0); rows; cols]
              | LAST => [rows; cols; (0, 0)]
              end in
let values := if (ndim image =? 4)%nat then (0, 0) :: values else values in
np_pad image values v.

(** A [mean] or [std] argument: one float, or one float per channel. *)
Inductive stat : Type :=
| Scalar (v : pynum)
| PerChannel (l : list pynum).

Definition per_channel (s : stat) (num_channels : nat) : result (list pynum) :=
match s with
| PerChannel l => if (length l =? num_channels)%nat then Ok l else Raise ValueError
| Scalar v => Ok (repeat v num_channels)
end.

Definition is_floating (d : dtype) : bool :=
match d with uint8 => false | _ => true end.

(** [(x - m) / s] computed in the array's floating dtype; the statistics
    have been stored with that dtype ([np.array(mean, dtype=image.dtype)]). *)
Definition standardize (d : dtype) (x : sample) (m s : pynum) : sample :=
match d, x with
| float64, Flt x => Flt (F64.div (F64.sub x (to_f64 m)) (to_f64 s))
| float64, Int n => Flt (F64.div (F64.sub (F64.of_Z n) (to_f64 m)) (to_f64 s))
| _, Flt x => Flt (F32.div (F32.sub x (to_f32 m)) (to_f32 s))
| _, Int n => Flt (F32.div (F32.sub (F32.of_Z n) (to_f32 m)) (to_f32 s))
end.

(** [transformers.image_transforms.normalize] on a three-axis image: a
    non-float image is first cast to float32, a per-channel statistic must
    have one entry per channel, and the result keeps shape and dtype. *)
Definition tf_normalize (image : ndarray) (mean std : stat)
  (input_data_format : ChannelDimension) : result ndarray :=
match shape image with
| [d0; d1; d2] =>
    let num_channels := match input_data_format with FIRST => d0 | LAST => d2 end in
    let image := if is_floating (dt image) then image else astype_float32 image in
    mean <- per_channel mean num_channels ;;
    std <- per_channel std num_channels ;;
    Ok {| shape := shape image;
          dt := dt image;
          item := fun idx =>
            match idx with
            | [a; b; c] =>
                let ch := match input_data_format with FIRST => a | LAST => c end in
                standardize (dt image) (item image idx)
                  (nth ch mean (PyInt 0)) (nth ch std (PyInt 1))
            | _ => item image idx
            end |}
| _ => Raise ValueError
end.

(** Interpolation flags: OpenCV's, and Pillow's [Image.Resampling]. *)
Module cv2.
Definition INTER_NEAREST : Z := 0.
Definition INTER_LINEAR : Z := 1.
Definition INTER_CUBIC : Z := 2.
Definition INTER_AREA : Z := 3.
Definition INTER_LANCZOS4 : Z := 4.
Definition INTER_LINEAR_EXACT : Z := 5.
Definition INTER_NEAREST_EXACT : Z := 6.
(** The interpolation flags [cv2.resize] knows; any other is an error. *)
Definition accepts (flag : Z) : bool := (0 <=? flag) && (flag <=? 6).
End cv2.

Module Resampling.
Definition NEAREST : Z := 0.
Definition LANCZOS : Z := 1.
Definition BILINEAR : Z := 2.
Definition BICUBIC : Z := 3.
Definition BOX : Z := 4.
Definition HAMMING : Z := 5.
End Resampling.

(** A decimal float literal [a / 10^k] (with [a] and [10^k] below [2^53]):
    the binary64 nearest to it. *)
Definition py_literal (a : Z) (k : Z) : spec_float := py_truediv a (10 ^ k).

(** [transformers.utils.constants]: [IMAGENET_STANDARD_MEAN] and
    [IMAGENET_STANDARD_STD] are both [[0.5, 0.5, 0.5]]; the ImageNet
    statistics proper are that module's [IMAGENET_DEFAULT_MEAN] and
    [IMAGENET_DEFAULT_STD]. *)
Definition IMAGENET_STANDARD_MEAN : stat :=
PerChannel [PyFloat (py_literal 5 1); PyFloat (py_literal 5 1); PyFloat (py_literal 5 1)].
Definition IMAGENET_STANDARD_STD : stat :=
PerChannel [PyFloat (py_literal 5 1); PyFloat (py_literal 5 1); PyFloat (py_literal 5 1)].
Definition IMAGENET_DEFAULT_MEAN : stat :=
PerChannel [PyFloat (py_literal 485 3); PyFloat (py_literal 456 3); PyFloat (py_literal 406 3)].
Definition IMAGENET_DEFAULT_STD : stat :=
PerChannel [PyFloat (py_literal 229 3); PyFloat (py_literal 224 3); PyFloat (py_literal 225 3)].

(** A size dictionary [{"height": h, "width": w}]. *)
Record Size : Type := mk_size { height : Z; width : Z }.

(** [size[...]] when [size] may be [None]. *)
Definition subscript (size : option Size) : result Size :=
match size with
| Some s => Ok s
| None => Raise TypeError
end.

(* ================================================================== *)
(** ** SuryaEncoderImageProcessor *)

Record SuryaEncoderImageProcessor : Type := mk_processor {
  max_size : option Size;
  do_align_long_axis : bool;
  resample : Z;
  rescale_factor : pynum;
  image_mean : stat;
  image_std : stat
}.

(** [__init__]: a keyword argument left out is [None] here. *)
Definition __init__ (max_size : option Size) (align_long_axis : option bool)
  (rescale_factor : option pynum) (image_mean image_std : option stat)
  : SuryaEncoderImageProcessor :=
{| max_size := max_size;
   do_align_long_axis := match align_long_axis with Some b => b | None => false end;
   resample := Resampling.BILINEAR;
   rescale_factor := match rescale_factor with
                     | Some r => r
                     | None => PyFloat (py_truediv 1 255)
                     end;
   image_mean := match image_mean with Some m => m | None => IMAGENET_STANDARD_MEAN end;
   image_std := match image_std with Some s => s | None => IMAGENET_STANDARD_STD end |}.

(** [align_long_axis(image, size)] *)
Definition align_long_axis (image : ndarray) (size : option Size) : result ndarray :=
match shape image with
| input_height :: input_width :: _ =>
    size <- subscript size ;;
    let output_height := height size in
    let output_width := width size in
    if ((output_width <? output_height) && (Z.of_nat input_width >? Z.of_nat input_height))
       || ((output_width >? output_height) && (Z.of_nat input_width <? Z.of_nat input_height))
    then np_rot90 image 3
    else Ok image
| _ => Raise ValueError
end.

(** The padding [pad_image] computes: [((pad_top, pad_bottom), (pad_left,
    pad_right))] from the two deltas. Python's [//] is floor division. *)
Definition pad_amounts (delta_height delta_width : Z) : (Z * Z) * (Z * Z) :=
let pad_top := delta_height / 2 in
let pad_left := delta_width / 2 in
let pad_bottom := delta_height - pad_top in
let pad_right := delta_width - pad_left in
((pad_top, pad_bottom), (pad_left, pad_right)).

(** [pad_image(image, size, input_data_format=..., pad_value=...)] *)
Definition pad_image (image : ndarray) (size : option Size)
  (input_data_format : ChannelDimension) (pad_value : pynum) : result ndarray :=
size <- subscript size ;;
let output_height := height size in
let output_width := width size in
hw <- get_image_size image input_data_format ;;
let '(input_height, input_width) := hw in
let delta_width := output_width - Z.of_nat input_width in
let delta_height := output_height - Z.of_nat input_height in
assert ((delta_width >=? 0) && (delta_height >=? 0)) ;;;
tf_pad image (pad_amounts delta_height delta_width) pad_value input_data_format.

(** [normalize(image, mean, std, input_data_format=...)] *)
Definition normalize (image : ndarray) (mean std : stat)
  (input_data_format : ChannelDimension) : result ndarray :=
tf_normalize image mean std input_data_format.

Section Pipeline.

(** The interpolation kernels of OpenCV are not modelled: the value
    [cv2.resize] computes for an output position is this function of the
    interpolation flag, the source array and the output extents. *)
Variable cv2_interpolate : Z -> ndarray -> nat -> nat -> list nat -> sample.

(** [settings.RECOGNITION_PAD_VALUE] of [surya.settings]. *)
Variable RECOGNITION_PAD_VALUE : pynum.

(** [cv2.resize(src, (w, h), interpolation=flag)]: the source must be a
    non-empty image of two or three axes, the requested size positive and
    the flag one OpenCV knows; the result has [h] rows and [w] columns, the
    source's dtype and channel count, and a single channel loses its
    axis. *)
Definition cv2_resize (src : ndarray) (dsize : Z * Z) (interpolation : Z)
  : result ndarray :=
let '(w, h) := dsize in
let out (sh : list nat) :=
  {| shape := sh;
     dt := dt src;
     item := cv2_interpolate interpolation src (Z.to_nat h) (Z.to_nat w) |} in
if (w <=? 0) || (h <=? 0) then Raise cv2_error
else if negb (cv2.accepts interpolation) then Raise cv2_error
else
  match shape src with
  | [H; W] =>
      if ((H =? 0) || (W =? 0))%nat then Raise cv2_error
      else Ok (out [Z.to_nat h; Z.to_nat w])
  | [H; W; C] =>
      if ((H =? 0) || (W =? 0) || (C =? 0) || (512 <? C))%nat then Raise cv2_error
      else if (C =? 1)%nat then Ok (out [Z.to_nat h; Z.to_nat w])
      else Ok (out [Z.to_nat h; Z.to_nat w; C])
  | _ => Raise cv2_error
  end.

(** [numpy_resize(image, size, interpolation)]; the default of
    [interpolation] is [cv2.INTER_LANCZOS4]. *)
Definition numpy_resize (image : ndarray) (size : option Size)
  (interpolation : option Z) : result ndarray :=
let interpolation := match interpolation with
                     | Some f => f
                     | None => cv2.INTER_LANCZOS4
                     end in
size <- subscript size ;;
let max_width := width size in
let max_height := height size in
resized_image <- cv2_resize image (max_width, max_height) interpolation ;;
transpose_2_0_1 resized_image.

(** The statements of [process_inner], each rebinding [images], are named
    one by one so that the theorems can speak of a stage.

    Lines 64-75: the optional alignment and its assertion. *)
Definition align_images (self : SuryaEncoderImageProcessor) (images : list ndarray)
  : result (list ndarray) :=
if do_align_long_axis self then
  images <- mapM (fun image => align_long_axis image (max_size self)) images ;;
  forM_ (fun img =>
           s1 <- getitem (shape img) 1 ;;
           s0 <- getitem (shape img) 0 ;;
           assert (s0 <=? s1)%nat) images ;;;
  Ok images
else Ok images.

(** Lines 78-82: the resize, called with [self.resample], and the
    channel-first assertion on the first result. *)
Definition resize_images (self : SuryaEncoderImageProcessor) (images : list ndarray)
  : result (list ndarray) :=
images <- mapM (fun img => numpy_resize img (max_size self) (Some (resample self))) images ;;
img0 <- getitem images 0 ;;
c <- getitem (shape img0) 0 ;;
assert (c =? 3)%nat ;;;
Ok images.

(** Lines 85-98: the cast to float32 and the padding to [max_size]. *)
Definition pad_images (self : SuryaEncoderImageProcessor) (images : list ndarray)
  : result (list ndarray) :=
let images := map astype_float32 images in
let max_size := max_size self in
mapM (fun image => pad_image image max_size FIRST RECOGNITION_PAD_VALUE) images.

(** Lines 101-104: the rescale, in float64 and back to float32.  The
    product raises [OverflowError], at the first image, when the factor is
    a Python int too large for a float. *)
Definition rescale_check (self : SuryaEncoderImageProcessor) (images : list ndarray)
  : result unit :=
forM_ (fun _ => if fits_float (rescale_factor self) then Ok tt else Raise OverflowError)
      images.

Definition rescale_image (self : SuryaEncoderImageProcessor) (img : ndarray) : ndarray :=
astype_float32 (mul_scalar_f64 (astype_float64 img) (rescale_factor self)).

Definition rescale_images (self : SuryaEncoderImageProcessor) (images : list ndarray)
  : list ndarray :=
map (rescale_image self) images.

(** Lines 106-114: the standardization. *)
Definition normalize_images (self : SuryaEncoderImageProcessor) (images : list ndarray)
  : result (list ndarray) :=
mapM (fun img => normalize img (image_mean self) (image_std self) FIRST) images.

(** [process_inner(images)] *)
Definition process_inner (self : SuryaEncoderImageProcessor) (images : list ndarray)
  : result (list ndarray) :=
img0 <- getitem images 0 ;;
c <- getitem (shape img0) 2 ;;
assert (c =? 3)%nat ;;;
images <- align_images self images ;;
images <- resize_images self images ;;
images <- pad_images self images ;;
rescale_check self images ;;;
let images := rescale_images self images in
images <- normalize_images self images ;;
Ok images.

End Pipeline.

(* ================================================================== *)
(** ** Vocabulary of the specification *)

(** A valid input image: height x width x 3, channel-last, with at least
    one row and one column. *)
Definition valid_image (img : ndarray) : Prop :=
match shape img with
| [H; W; C] => (0 < H)%nat /\ (0 < W)%nat /\ C = 3%nat
| _ => False
end.

(** A mean or std that [normalize] accepts for [n] channels. *)
Definition stat_fits (n : nat) (s : stat) : Prop :=
match s with
| Scalar _ => True
| PerChannel l => length l = n
end.

(** A Python scalar that every conversion to a float array takes without
    a second rounding or an overflow: any float, or an int of magnitude at
    most [2^53]. *)
Definition pynum_in_range (v : pynum) : Prop :=
match v with
| PyFloat _ => True
| PyInt z => - 2 ^ 53 <= z <= 2 ^ 53
end.

Definition stat_in_range (s : stat) : Prop :=
match s with
| Scalar v => pynum_in_range v
| PerChannel l => Forall pynum_in_range l
end.

(** A fill value that an array of dtype [d] holds as it is: an int from
    0 to 255 for [uint8], a scalar in range for the float dtypes. *)
Definition fill_fits (d : dtype) (v : pynum) : Prop :=
match d with
| uint8 => match v with PyInt z => 0 <= z <= 255 | PyFloat _ => False end
| _ => pynum_in_range v
end.

(** The processed-image shape and dtype for a target size. *)
Definition processed (sz : Size) (out : ndarray) : Prop :=
shape out = [3%nat; Z.to_nat (height sz); Z.to_nat (width sz)] /\ dt out = float32.

(** The aligner's rotation test, on the target size and the image extents. *)
Definition aspect_mismatch (sz : Size) (input_height input_width : nat) : Prop :=
(width sz < height sz /\ Z.of_nat input_width > Z.of_nat input_height) \/
(width sz > height sz /\ Z.of_nat input_width < Z.of_nat input_height).

(** The same test as the code evaluates it. *)
Definition aspect_mismatchb (sz : Size) (input_height input_width : nat) : bool :=
((width sz <? height sz) && (Z.of_nat input_width >? Z.of_nat input_height))
|| ((width sz >? height sz) && (Z.of_nat input_width <? Z.of_nat input_height)).

(** The test of the assertion in [process_inner]: width at least height. *)
Definition is_wide (img : ndarray) : bool :=
match shape img with
| h :: w :: _ => (h <=? w)%nat
| _ => false
end.

(** A portrait-shaped image: strictly taller than wide. *)
Definition is_portrait (img : ndarray) : Prop :=
match shape img with
| h :: w :: _ => (w < h)%nat
| _ => False
end.

(** What [np.pad] returns for a channel-first image and the pads
    [top], [bottom], [left], [right]. *)
Definition padded_first (image : ndarray) (top bottom left right : nat) (v : pynum)
  : ndarray :=
let pw := [(0%nat, 0%nat); (top, bottom); (left, right)] in
{| shape := pad_shape (shape image) pw;
   dt := dt image;
   item := fun idx => match pad_source (shape image) pw idx with
                      | Some src => item image src
                      | None => store (dt image) v
                      end |}.

(** What the library's [normalize] returns for a float channel-first image
    and the per-channel statistics [ms], [ss]. *)
Definition normalized_first (image : ndarray) (ms ss : list pynum) : ndarray :=
{| shape := shape image;
   dt := dt image;
   item := fun idx =>
     match idx with
     | [a; b; c] =>
         standardize (dt image) (item image idx) (nth a ms (PyInt 0)) (nth a ss (PyInt 1))
     | _ => item image idx
     end |}.

(** Quarter turns of an image as seen on screen (row 0 at the top, column 0
    at the left), stated on pixel positions.  Turning an [H x W] image
    clockwise sends the pixel at row [r], column [c] to row [c], column
    [H - 1 - r]: the top row becomes the right column.  Turning it
    counter-clockwise sends it to row [W - 1 - c], column [r]: the top row
    becomes the left column, read upwards. *)
Definition rotate_cw (m : ndarray) : ndarray :=
match shape m with
| H :: W :: rest =>
    {| shape := W :: H :: rest;
       dt := dt m;
       item := fun idx => match idx with
                          | i :: j :: r => item m ((H - 1 - j)%nat :: i :: r)
                          | _ => item m idx
                          end |}
| _ => m
end.

Definition rotate_ccw (m : ndarray) : ndarray :=
match shape m with
| H :: W :: rest =>
    {| shape := W :: H :: rest;
       dt := dt m;
       item := fun idx => match idx with
                          | i :: j :: r => item m (j :: (W - 1 - i)%nat :: r)
                          | _ => item m idx
                          end |}
| _ => m
end.

(** The aligner turns the image a quarter turn counter-clockwise. *)
Definition rotates_counter_clockwise (image : ndarray) (sz : Size) : Prop :=
exists r, align_long_axis image (Some sz) = Ok r /\ same_array r (rotate_ccw image).

(** The aligner turns the image a quarter turn clockwise. *)
Definition rotates_clockwise (image : ndarray) (sz : Size) : Prop :=
exists r, align_long_axis image (Some sz) = Ok r /\ same_array r (rotate_cw image).

(** The resize stage resizes every image with the interpolation [flag]. *)
Definition resize_stage_uses (flag : Z) (self : SuryaEncoderImageProcessor) : Prop :=
forall (cv2_interpolate : Z -> ndarray -> nat -> nat -> list nat -> sample)
       (images resized : list ndarray),
  resize_images cv2_interpolate self images = Ok resized ->
  Forall2 (fun img r => numpy_resize cv2_interpolate img (max_size self) (Some flag) = Ok r)
          images resized.

(** One image through the statements of [process_inner], in their order:
    the optional alignment with its assertion, the resize, the cast and
    padding, the rescale and the standardization. *)
Definition align_one (self : SuryaEncoderImageProcessor) (img : ndarray) : result ndarray :=
if do_align_long_axis self then
  a <- align_long_axis img (max_size self) ;;
  (s1 <- getitem (shape a) 1 ;; s0 <- getitem (shape a) 0 ;; assert (s0 <=? s1)%nat) ;;;
  Ok a
else Ok img.

Definition process_one
  (cv2_interpolate : Z -> ndarray -> nat -> nat -> list nat -> sample)
  (pad_value : pynum) (self : SuryaEncoderImageProcessor) (img : ndarray)
  : result ndarray :=
a <- align_one self img ;;
r <- numpy_resize cv2_interpolate a (max_size self) (Some (resample self)) ;;
p <- pad_image (astype_float32 r) (max_size self) FIRST pad_value ;;
(if fits_float (rescale_factor self) then Ok tt else Raise OverflowError) ;;;
normalize (rescale_image self p) (image_mean self) (image_std self) FIRST.

(** An image whose height and width differ. *)
Definition not_square (img : ndarray) : Prop :=
match shape img with
| h :: w :: _ => h <> w
| _ => False
end.

(** "Approximately": within one hundredth. *)
Definition approx (x : spec_float) (q : Q) : Prop :=
(Qabs (SF2Q x - q) <= 1 # 100)%Q.

Definition stat_approx (s : stat) (q0 q1 q2 : Q) : Prop :=
match s with
| PerChannel [a; b; c] => approx (to_f64 a) q0 /\ approx (to_f64 b) q1 /\ approx (to_f64 c) q2
| _ => False
end.

(** The rescale of one float32 sample as the code computes it, and as a
    single-precision multiplication would. *)
Definition rescale_via_f64 (factor : pynum) (x : spec_float) : spec_float :=
F32.round (F64.mul (F64.round x) (to_f64 factor)).


(** The float32 value of a sample after [astype(np.float32)]. *)
Definition sample_to_f32 (s : sample) : spec_float :=
match s with
| Int n => F32.of_Z n
| Flt x => F32.round x
end.

(** What the statements after the resize make of one resized sample: the
    float32 cast, the rescale through binary64, the standardization with
    the channel's mean [m] and std [s]. *)
Definition encode_sample (factor m s : pynum) (x : sample) : sample :=
Flt (F32.div (F32.sub (rescale_via_f64 factor (sample_to_f32 x)) (to_f32 m)) (to_f32 s)).

(** The same for an 8-bit sample under the default factor and statistics. *)
Definition default_encode (n : Z) : spec_float :=
F32.div (F32.sub (rescale_via_f64 (PyFloat (py_truediv 1 255)) (F32.of_Z n))
                 (to_f32 (PyFloat (py_literal 5 1))))
        (to_f32 (PyFloat (py_literal 5 1))).

(** A float that is a number, neither an infinity nor a NaN. *)
Definition is_number (x : spec_float) : bool :=
match x with
| S754_finite _ _ _ | S754_zero _ => true
| _ => false
end.

(** The 8-bit sample values. *)
Definition uint8_values : list Z := map Z.of_nat (seq 0 256).

(** The processor with its alignment flag set to [b]. *)
Definition with_alignment (b : bool) (self : SuryaEncoderImageProcessor)
  : SuryaEncoderImageProcessor :=
{| max_size := max_size self;
   do_align_long_axis := b;
   resample := resample self;
   rescale_factor := rescale_factor self;
   image_mean := image_mean self;
   image_std := image_std self |}.

(** A single-channel image: two axes, or three with a last extent of 1,
    and at least one row and one column. *)
Definition single_channel (img : ndarray) : Prop :=
match shape img with
| [H; W] => (0 < H)%nat /\ (0 < W)%nat
| [H; W; C] => (0 < H)%nat /\ (0 < W)%nat /\ C = 1%nat
| _ => False
end.

(** What [np.pad] returns for a channel-last image and the pads [top],
    [bottom], [left], [right]. *)
Definition padded_last (image : ndarray) (top bottom left right : nat) (v : pynum)
  : ndarray :=
let pw := [(top, bottom); (left, right); (0%nat, 0%nat)] in
{| shape := pad_shape (shape image) pw;
   dt := dt image;
   item := fun idx => match pad_source (shape image) pw idx with
                      | Some src => item image src
                      | None => store (dt image) v
                      end |}.

(* ================================================================== *)
(** ** Concrete data for the examples *)

(** A uint8 channel-last image from its rows of pixels. *)
Definition image_of (rows : list (list (list Z))) : ndarray :=
{| shape := [length rows; length (hd [] rows); length (hd [] (hd [] rows))];
   dt := uint8;
   item := fun idx => match idx with
                      | [i; j; c] => Int (nth c (nth j (nth i rows []) []) 0)
                      | _ => Int 0
                      end |}.

(** One row of two pixels: a dark one on the left, a bright one on the right. *)
Definition wide_1x2 : ndarray := image_of [[[10; 11; 12]; [200; 201; 202]]].

(** Two rows of one pixel. *)
Definition tall_2x1 : ndarray := image_of [[[10; 11; 12]]; [[200; 201; 202]]].

(** A single RGB pixel and a single RGBA pixel. *)
Definition rgb_1x1 : ndarray := image_of [[[10; 11; 12]]].
Definition rgba_1x1 : ndarray := image_of [[[10; 11; 12; 255]]].
Definition gray_1x1 : ndarray := image_of [[[10]]].

(** A channel-first array: 1 channel, 2 rows, 3 columns. *)
Definition chw_1x2x3 : ndarray :=
{| shape := [1; 2; 3]%nat;
   dt := float32;
   item := fun idx => match idx with
                      | [c; i; j] => Flt (F32.of_Z (Z.of_nat (10 * i + j)))
                      | _ => Flt (F32.of_Z 0)
                      end |}.

Definition canvas_5x6 : Size := {| height := 5; width := 6 |}.
Definition canvas_1x6 : Size := {| height := 1; width := 6 |}.

Definition portrait_1x2 : Size := {| height := 2; width := 1 |}.
Definition landscape_2x1 : Size := {| height := 1; width := 2 |}.
Definition square_2x2 : Size := {| height := 2; width := 2 |}.

(** A stand-in for OpenCV's kernels that reports the interpolation flag it
    was called with as the value of every output sample. *)
Definition flag_probe (flag : Z) (src : ndarray) (h w : nat) (idx : list nat) : sample :=
Int flag.

(** A nearest-neighbour stand-in, for running the pipeline on examples. *)
Definition nearest (flag : Z) (src : ndarray) (h w : nat) (idx : list nat) : sample :=
match shape src, idx with
| H :: W :: _, i :: j :: r => item src ((i * H / h)%nat :: (j * W / w)%nat :: r)
| _, _ => Int 0
end.

Definition white : pynum := PyInt 255.

(** The processor with every keyword left at its default but the target
    size and the alignment flag. *)
Definition default_processor (sz : Size) (align : bool) : SuryaEncoderImageProcessor :=
__init__ (Some sz) (Some align) None None None.

(** A processor configured with scalar statistics. *)
Definition scalar_processor (sz : Size) : SuryaEncoderImageProcessor :=
__init__ (Some sz) None None (Some (Scalar (PyFloat (py_literal 5 1))))
  (Some (Scalar (PyFloat (py_literal 5 1)))).

(* ================================================================== *)
(** ** Reasoning about exceptions and comprehensions *)

Lemma bind_Ok_inv {A B : Type} (m : result A) (k : A -> result B) (b : B) :
  bind m k = Ok b -> exists a, m = Ok a /\ k a = Ok b.
Proof.
  destruct m as [a | e]; simpl; intros H.
  - exists a. split; [reflexivity | exact H].
  - discriminate H.
Qed.


(** Splits a hypothesis [x <- m ;; k = Ok b] into the two steps. *)
Ltac bind_inv H :=
  let a := fresh "a" in
  let Ha := fresh "Ha" in
  apply bind_Ok_inv in H; destruct H as [a [Ha H]].

Lemma mapM_post {A B : Type} (f : A -> result B) (P : A -> Prop) (Q : B -> Prop) :
  (forall x y, P x -> f x = Ok y -> Q y) ->
  forall xs ys, Forall P xs -> mapM f xs = Ok ys ->
  Forall Q ys /\ length ys = length xs.
Proof.
  intros Hf xs. induction xs as [| x xs IH]; intros ys HP H; simpl in H.
  - inversion H; subst. split; [constructor | reflexivity].
  - inversion HP as [| ? ? Px Pxs]; subst.
    bind_inv H. bind_inv H. inversion H; subst.
    destruct (IH _ Pxs Ha0) as [HQ Hlen].
    split; [constructor; eauto | simpl; congruence].
Qed.

Lemma mapM_total {A B : Type} (f : A -> result B) (P : A -> Prop) (Q : B -> Prop) :
  (forall x, P x -> exists y, f x = Ok y /\ Q y) ->
  forall xs, Forall P xs ->
  exists ys, mapM f xs = Ok ys /\ Forall Q ys /\ length ys = length xs.
Proof.
  intros Hf xs HP. induction HP as [| x xs Px Pxs IH].
  - exists []. repeat split; constructor.
  - destruct (Hf x Px) as [y [Hy Qy]]. destruct IH as [ys [Hys [HQ Hlen]]].
    exists (y :: ys). simpl. rewrite Hy, Hys. simpl.
    repeat split; [constructor; assumption | congruence].
Qed.

Lemma mapM_pointwise {A B : Type} (f : A -> result B) (xs : list A) (ys : list B) :
  mapM f xs = Ok ys -> Forall2 (fun x y => f x = Ok y) xs ys.
Proof.
  revert ys. induction xs as [| x xs IH]; intros ys H; simpl in H.
  - inversion H. constructor.
  - bind_inv H. bind_inv H. inversion H; subst. constructor; auto.
Qed.


Lemma Forall_map_post {A B : Type} (g : A -> B) (P : A -> Prop) (Q : B -> Prop) :
  (forall x, P x -> Q (g x)) -> forall xs, Forall P xs -> Forall Q (map g xs).
Proof.
  intros Hg xs HP. induction HP; simpl; constructor; auto.
Qed.

(** The assertion loop passes exactly when every element passes, and can
    only raise what its body raises. *)
Lemma forM_assert_pass {A : Type} (t : A -> bool) (xs : list A) :
  Forall (fun x => t x = true) xs -> forM_ (fun x => assert (t x)) xs = Ok tt.
Proof.
  induction 1 as [| x xs Hx _ IH]; simpl; [reflexivity |].
  rewrite Hx. simpl. exact IH.
Qed.

Lemma forM_assert_fail {A : Type} (t : A -> bool) (xs : list A) :
  Exists (fun x => t x = false) xs ->
  forM_ (fun x => assert (t x)) xs = Raise AssertionError.
Proof.
  induction xs as [| x xs IH]; intros H.
  - inversion H.
  - simpl. destruct (t x) eqn:E; simpl; [| reflexivity].
    apply IH. inversion H; subst; [congruence | assumption].
Qed.

Lemma forM_assert_Ok_inv {A : Type} (t : A -> bool) (xs : list A) (u : unit) :
  forM_ (fun x => assert (t x)) xs = Ok u -> Forall (fun x => t x = true) xs.
Proof.
  induction xs as [| x xs IH]; simpl; intros H; [constructor |].
  destruct (t x) eqn:E; simpl in H; [| discriminate].
  constructor; auto.
Qed.

(* ================================================================== *)
(** ** The stages, one image at a time *)

Lemma aspect_mismatchb_spec (sz : Size) (H W : nat) :
  aspect_mismatchb sz H W = true <-> aspect_mismatch sz H W.
Proof.
  unfold aspect_mismatchb, aspect_mismatch.
  rewrite orb_true_iff, !andb_true_iff, !Z.gtb_ltb, !Z.ltb_lt. lia.
Qed.

Lemma rot90_3_shape (image : ndarray) (H W : nat) (rest : list nat) :
  shape image = H :: W :: rest ->
  shape (flip_axis1 (swap_axes01 image)) = W :: H :: rest.
Proof.
  intros Hs. unfold flip_axis1, swap_axes01. rewrite Hs. reflexivity.
Qed.

Lemma np_rot90_3 (image : ndarray) (H W : nat) (rest : list nat) :
  shape image = H :: W :: rest ->
  np_rot90 image 3 = Ok (flip_axis1 (swap_axes01 image)).
Proof.
  intros Hs. unfold np_rot90, ndim. rewrite Hs. reflexivity.
Qed.

Lemma np_rot90_1 (image : ndarray) (H W : nat) (rest : list nat) :
  shape image = H :: W :: rest ->
  np_rot90 image 1 = Ok (swap_axes01 (flip_axis1 image)).
Proof.
  intros Hs. unfold np_rot90, ndim. rewrite Hs. reflexivity.
Qed.

Lemma align_long_axis_eq (image : ndarray) (H W : nat) (rest : list nat) (sz : Size) :
  shape image = H :: W :: rest ->
  align_long_axis image (Some sz) =
  Ok (if aspect_mismatchb sz H W then flip_axis1 (swap_axes01 image) else image).
Proof.
  intros Hs. unfold align_long_axis. rewrite Hs. cbn [subscript bind].
  fold (aspect_mismatchb sz H W).
  destruct (aspect_mismatchb sz H W); [| reflexivity].
  exact (np_rot90_3 image H W rest Hs).
Qed.

Lemma align_long_axis_valid (image : ndarray) (sz : Size) :
  valid_image image ->
  exists y, align_long_axis image (Some sz) = Ok y /\ valid_image y.
Proof.
  unfold valid_image. intros Hv.
  destruct (shape image) as [| H [| W [| C [| ? ?]]]] eqn:Hs; try contradiction.
  destruct Hv as [HH [HW HC]].
  rewrite (align_long_axis_eq image H W [C] sz Hs).
  destruct (aspect_mismatchb sz H W).
  - eexists. split; [reflexivity |].
    rewrite (rot90_3_shape image H W [C] Hs). auto.
  - exists image. rewrite Hs. auto.
Qed.

Section StageLemmas.

Variable cv2_interpolate : Z -> ndarray -> nat -> nat -> list nat -> sample.
Variable RECOGNITION_PAD_VALUE : pynum.

Lemma cv2_resize_rgb (src : ndarray) (H W C : nat) (w h flag : Z) :
  shape src = [H; W; C] -> (0 < H)%nat -> (0 < W)%nat -> (2 <= C <= 512)%nat ->
  cv2_resize cv2_interpolate src (w, h) flag =
  if (w <=? 0) || (h <=? 0) then Raise cv2_error
  else if negb (cv2.accepts flag) then Raise cv2_error
  else Ok {| shape := [Z.to_nat h; Z.to_nat w; C];
             dt := dt src;
             item := cv2_interpolate flag src (Z.to_nat h) (Z.to_nat w) |}.
Proof.
  intros Hs HH HW HC. unfold cv2_resize. rewrite Hs.
  destruct ((w <=? 0) || (h <=? 0)); [reflexivity |].
  destruct (negb (cv2.accepts flag)); [reflexivity |].
  replace (H =? 0)%nat with false by (symmetry; apply Nat.eqb_neq; lia).
  replace (W =? 0)%nat with false by (symmetry; apply Nat.eqb_neq; lia).
  replace (C =? 0)%nat with false by (symmetry; apply Nat.eqb_neq; lia).
  replace (512 <? C)%nat with false by (symmetry; apply Nat.ltb_ge; lia).
  replace (C =? 1)%nat with false by (symmetry; apply Nat.eqb_neq; lia).
  reflexivity.
Qed.

(** The resized, channel-first array for a source with [C] channels. *)
Lemma numpy_resize_eq (img : ndarray) (H W C : nat) (sz : Size) (flag : option Z) :
  shape img = [H; W; C] -> (0 < H)%nat -> (0 < W)%nat -> (2 <= C <= 512)%nat ->
  numpy_resize cv2_interpolate img (Some sz) flag =
  let f := match flag with Some f => f | None => cv2.INTER_LANCZOS4 end in
  if (width sz <=? 0) || (height sz <=? 0) then Raise cv2_error
  else if negb (cv2.accepts f) then Raise cv2_error
  else
    let hn := Z.to_nat (height sz) in
    let wn := Z.to_nat (width sz) in
    Ok {| shape := [C; hn; wn];
          dt := dt img;
          item := fun idx => match idx with
                             | [c; i; j] => cv2_interpolate f img hn wn [i; j; c]
                             | _ => cv2_interpolate f img hn wn idx
                             end |}.
Proof.
  intros Hs HH HW HC. unfold numpy_resize. cbn [subscript bind].
  rewrite (cv2_resize_rgb img H W C _ _ _ Hs HH HW HC). cbv zeta.
  destruct ((width sz <=? 0) || (height sz <=? 0)); [reflexivity |].
  destruct (negb (cv2.accepts _)); reflexivity.
Qed.

Lemma valid_image_shape (img : ndarray) :
  valid_image img ->
  exists H W, shape img = [H; W; 3%nat] /\ (0 < H)%nat /\ (0 < W)%nat.
Proof.
  unfold valid_image.
  destruct (shape img) as [| H [| W [| C [| ? ?]]]]; try contradiction.
  intros [HH [HW HC]]. subst C. exists H, W. auto.
Qed.

Lemma numpy_resize_valid_inv (img r : ndarray) (sz : Size) (flag : option Z) :
  valid_image img ->
  numpy_resize cv2_interpolate img (Some sz) flag = Ok r ->
  shape r = [3%nat; Z.to_nat (height sz); Z.to_nat (width sz)]
  /\ 0 < width sz /\ 0 < height sz.
Proof.
  intros Hv Hr. destruct (valid_image_shape img Hv) as [H [W [Hs [HH HW]]]].
  rewrite (numpy_resize_eq img H W 3 sz flag Hs HH HW) in Hr by lia.
  cbv zeta in Hr.
  destruct ((width sz <=? 0) || (height sz <=? 0)) eqn:E; [discriminate |].
  destruct (negb (cv2.accepts _)); [discriminate |].
  apply orb_false_iff in E. destruct E as [E1 E2].
  apply Z.leb_gt in E1. apply Z.leb_gt in E2.
  inversion Hr; subst. simpl. auto.
Qed.

Lemma numpy_resize_valid_total (img : ndarray) (sz : Size) (f : Z) :
  valid_image img -> 0 < width sz -> 0 < height sz -> cv2.accepts f = true ->
  exists r, numpy_resize cv2_interpolate img (Some sz) (Some f) = Ok r
            /\ shape r = [3%nat; Z.to_nat (height sz); Z.to_nat (width sz)].
Proof.
  intros Hv Hw Hh Hf. destruct (valid_image_shape img Hv) as [H [W [Hs [HH HW]]]].
  rewrite (numpy_resize_eq img H W 3 sz (Some f) Hs HH HW) by lia. cbv zeta.
  replace ((width sz <=? 0) || (height sz <=? 0)) with false
    by (symmetry; apply orb_false_iff; split; apply Z.leb_gt; assumption).
  rewrite Hf. eexists. split; reflexivity.
Qed.

End StageLemmas.

(* ================================================================== *)
(** ** The padder *)

Lemma half_split (d : Z) :
  0 <= d ->
  0 <= d / 2 /\ d / 2 <= d - d / 2 /\ d - d / 2 <= d / 2 + 1.
Proof.
  intros Hd. pose proof (Z.div_mod d 2 ltac:(lia)) as E.
  pose proof (Z.mod_pos_bound d 2 ltac:(lia)) as B. lia.
Qed.

Lemma half_even (d : Z) : Z.even d = true -> d - d / 2 = d / 2.
Proof.
  intros He. apply Z.even_spec in He. destruct He as [k Hk]. subst d.
  rewrite Z.mul_comm, Z.div_mul by lia. lia.
Qed.

Lemma half_odd (d : Z) : Z.odd d = true -> d - d / 2 = d / 2 + 1.
Proof.
  intros Ho. apply Z.odd_spec in Ho. destruct Ho as [k Hk]. subst d.
  replace (2 * k + 1) with (1 + k * 2) by lia.
  rewrite Z.div_add by lia. change (1 / 2) with 0. lia.
Qed.

Lemma get_image_size_first (image : ndarray) (C H W : nat) :
  shape image = [C; H; W] -> get_image_size image FIRST = Ok (H, W).
Proof.
  intros Hs. unfold get_image_size, getitem_neg. rewrite Hs. reflexivity.
Qed.


(** [pad_image] up to the call of the library's [pad]: the size lookup,
    the two deltas and the assertion. *)
Lemma pad_image_unfold (image : ndarray) (sz : Size) (fmt : ChannelDimension)
  (v : pynum) (H W : nat) :
  get_image_size image fmt = Ok (H, W) ->
  pad_image image (Some sz) fmt v =
  if (width sz - Z.of_nat W >=? 0) && (height sz - Z.of_nat H >=? 0)
  then tf_pad image (pad_amounts (height sz - Z.of_nat H) (width sz - Z.of_nat W)) v fmt
  else Raise AssertionError.
Proof.
  intros Hg. unfold pad_image. cbn [subscript bind]. rewrite Hg. cbn [bind].
  destruct ((width sz - Z.of_nat W >=? 0) && (height sz - Z.of_nat H >=? 0));
    reflexivity.
Qed.

Lemma tf_pad_first (image : ndarray) (C H W : nat) (t b l r : Z) (v : pynum) :
  storable (dt image) v = true ->
  shape image = [C; H; W] -> 0 <= t -> 0 <= b -> 0 <= l -> 0 <= r ->
  tf_pad image ((t, b), (l, r)) v FIRST =
  Ok (padded_first image (Z.to_nat t) (Z.to_nat b) (Z.to_nat l) (Z.to_nat r) v).
Proof.
  intros Hst Hs Ht Hb Hl Hr. unfold tf_pad, np_pad, ndim. rewrite Hs, Hst.
  cbn [length Nat.eqb negb existsb fst snd map].
  replace (t <? 0) with false by (symmetry; apply Z.ltb_ge; lia).
  replace (b <? 0) with false by (symmetry; apply Z.ltb_ge; lia).
  replace (l <? 0) with false by (symmetry; apply Z.ltb_ge; lia).
  replace (r <? 0) with false by (symmetry; apply Z.ltb_ge; lia).
  cbn [Z.ltb Z.compare orb]. unfold padded_first. rewrite Hs. reflexivity.
Qed.

Lemma pad_image_first_eq (image : ndarray) (C H W : nat) (sz : Size) (v : pynum) :
  storable (dt image) v = true ->
  shape image = [C; H; W] ->
  Z.of_nat H <= height sz -> Z.of_nat W <= width sz ->
  let dh := height sz - Z.of_nat H in
  let dw := width sz - Z.of_nat W in
  pad_image image (Some sz) FIRST v =
  Ok (padded_first image (Z.to_nat (dh / 2)) (Z.to_nat (dh - dh / 2))
                         (Z.to_nat (dw / 2)) (Z.to_nat (dw - dw / 2)) v).
Proof.
  intros Hst Hs HH HW dh dw.
  rewrite (pad_image_unfold image sz FIRST v H W (get_image_size_first image C H W Hs)).
  fold dh dw.
  replace ((dw >=? 0) && (dh >=? 0)) with true
    by (symmetry; apply andb_true_iff; rewrite !Z.geb_leb, !Z.leb_le; subst dh dw; lia).
  unfold pad_amounts.
  pose proof (half_split dh ltac:(subst dh; lia)).
  pose proof (half_split dw ltac:(subst dw; lia)).
  apply (tf_pad_first image C H W); solve [assumption | lia].
Qed.

Lemma padded_first_shape (image : ndarray) (C H W : nat) (sz : Size) (v : pynum) :
  shape image = [C; H; W] ->
  Z.of_nat H <= height sz -> Z.of_nat W <= width sz ->
  let dh := height sz - Z.of_nat H in
  let dw := width sz - Z.of_nat W in
  shape (padded_first image (Z.to_nat (dh / 2)) (Z.to_nat (dh - dh / 2))
                            (Z.to_nat (dw / 2)) (Z.to_nat (dw - dw / 2)) v)
  = [C; Z.to_nat (height sz); Z.to_nat (width sz)].
Proof.
  intros Hs HH HW dh dw. unfold padded_first. rewrite Hs. cbn [shape pad_shape].
  pose proof (half_split dh ltac:(subst dh; lia)).
  pose proof (half_split dw ltac:(subst dw; lia)).
  f_equal; [lia |]. f_equal; [subst dh; lia |]. f_equal. subst dw; lia.
Qed.

(** Reading the padded array: inside the window the source item, outside
    it the stored fill value. *)
Lemma padded_first_item (image : ndarray) (C H W : nat) (t b l r : nat) (v : pynum)
  (c i j : nat) :
  shape image = [C; H; W] -> (c < C)%nat ->
  item (padded_first image t b l r v) [c; i; j] =
  if ((t <=? i) && (i <? t + H) && ((l <=? j) && (j <? l + W)))%nat
  then item image [c; (i - t)%nat; (j - l)%nat]
  else store (dt image) v.
Proof.
  intros Hs Hc. unfold padded_first. rewrite Hs. cbn [item pad_source].
  replace ((0 <=? c) && (c <? 0 + C))%nat with true
    by (symmetry; apply andb_true_iff; split; [reflexivity | apply Nat.ltb_lt; lia]).
  rewrite Nat.sub_0_r.
  destruct ((t <=? i) && (i <? t + H))%nat; [| reflexivity].
  destruct ((l <=? j) && (j <? l + W))%nat; reflexivity.
Qed.

(* ================================================================== *)
(** ** The normalizer *)

Lemma per_channel_fits (s : stat) (n : nat) :
  stat_fits n s -> exists l, per_channel s n = Ok l /\ length l = n.
Proof.
  destruct s as [v | l]; simpl; intros Hf.
  - exists (repeat v n). split; [reflexivity | apply repeat_length].
  - exists l. rewrite Hf, Nat.eqb_refl. auto.
Qed.

Lemma normalize_first_eq (image : ndarray) (C H W : nat) (mean std : stat) :
  shape image = [C; H; W] -> is_floating (dt image) = true ->
  normalize image mean std FIRST =
  (ms <- per_channel mean C ;; ss <- per_channel std C ;; Ok (normalized_first image ms ss)).
Proof.
  intros Hs Hf. unfold normalize, tf_normalize. rewrite Hs, Hf. reflexivity.
Qed.

Lemma normalize_first_post (image out : ndarray) (C H W : nat) (mean std : stat) :
  shape image = [C; H; W] -> is_floating (dt image) = true ->
  normalize image mean std FIRST = Ok out ->
  shape out = shape image /\ dt out = dt image.
Proof.
  intros Hs Hf Hn. rewrite (normalize_first_eq image C H W mean std Hs Hf) in Hn.
  bind_inv Hn. bind_inv Hn. inversion Hn; subst. split; reflexivity.
Qed.

Lemma normalize_first_total (image : ndarray) (C H W : nat) (mean std : stat) :
  shape image = [C; H; W] -> is_floating (dt image) = true ->
  stat_fits C mean -> stat_fits C std ->
  exists out, normalize image mean std FIRST = Ok out
              /\ shape out = shape image /\ dt out = dt image.
Proof.
  intros Hs Hf Hm Hd. rewrite (normalize_first_eq image C H W mean std Hs Hf).
  destruct (per_channel_fits mean C Hm) as [ms [Ems _]].
  destruct (per_channel_fits std C Hd) as [ss [Ess _]].
  rewrite Ems, Ess. cbn [bind]. eexists. repeat split.
Qed.

(* ================================================================== *)
(** ** The pipeline, stage by stage *)

Section PipelineLemmas.

Variable cv2_interpolate : Z -> ndarray -> nat -> nat -> list nat -> sample.
Variable RECOGNITION_PAD_VALUE : pynum.

(** [process_inner] is its five stages in sequence, when it returns. *)
Lemma process_inner_stages (self : SuryaEncoderImageProcessor)
  (images outs : list ndarray) :
  process_inner cv2_interpolate RECOGNITION_PAD_VALUE self images = Ok outs ->
  exists aligned resized padded,
    align_images self images = Ok aligned
    /\ resize_images cv2_interpolate self aligned = Ok resized
    /\ pad_images RECOGNITION_PAD_VALUE self resized = Ok padded
    /\ normalize_images self (rescale_images self padded) = Ok outs.
Proof.
  unfold process_inner. intros H.
  bind_inv H. bind_inv H. bind_inv H.
  bind_inv H. bind_inv H. bind_inv H. bind_inv H. bind_inv H.
  inversion H; subst.
  eexists _, _, _. repeat split; eassumption.
Qed.

(** The check of the rescale factor passes on every batch when the factor
    fits a float, and only then on a non-empty one. *)
Lemma rescale_check_fits (self : SuryaEncoderImageProcessor) (images : list ndarray) :
  fits_float (rescale_factor self) = true -> rescale_check self images = Ok tt.
Proof.
  intros Hf. unfold rescale_check. rewrite Hf.
  induction images as [| x xs IH]; simpl; [reflexivity | exact IH].
Qed.

Lemma rescale_check_inv (self : SuryaEncoderImageProcessor) (images : list ndarray)
  (u : unit) :
  images <> [] -> rescale_check self images = Ok u ->
  fits_float (rescale_factor self) = true.
Proof.
  intros Hne H. destruct images as [| x xs]; [congruence |].
  unfold rescale_check in H. simpl in H.
  destruct (fits_float (rescale_factor self)); [reflexivity | discriminate H].
Qed.

Lemma pynum_in_range_fits (v : pynum) : pynum_in_range v -> fits_float v = true.
Proof.
  destruct v as [z | x]; simpl; [| reflexivity].
  intros Hz. apply Z.ltb_lt.
  assert (B : 2 ^ 53 < 2 ^ 1024 - 2 ^ 970) by (vm_compute; reflexivity).
  lia.
Qed.

Lemma align_images_valid (self : SuryaEncoderImageProcessor) (sz : Size)
  (images aligned : list ndarray) :
  max_size self = Some sz -> Forall valid_image images ->
  align_images self images = Ok aligned ->
  Forall valid_image aligned /\ length aligned = length images.
Proof.
  intros Hsz Hv H. unfold align_images in H.
  destruct (do_align_long_axis self).
  - bind_inv H. bind_inv H. inversion H; subst.
    refine (mapM_post _ valid_image valid_image _ _ _ Hv Ha).
    intros x y Hx Hy. rewrite Hsz in Hy.
    destruct (align_long_axis_valid x sz Hx) as [y' [E Hy']]. congruence.
  - inversion H; subst. auto.
Qed.

Lemma resize_images_shape (self : SuryaEncoderImageProcessor) (sz : Size)
  (images resized : list ndarray) :
  max_size self = Some sz -> Forall valid_image images ->
  resize_images cv2_interpolate self images = Ok resized ->
  Forall (fun r => shape r = [3%nat; Z.to_nat (height sz); Z.to_nat (width sz)]
                   /\ 0 < width sz /\ 0 < height sz) resized
  /\ length resized = length images.
Proof.
  intros Hsz Hv H. unfold resize_images in H.
  bind_inv H. bind_inv H. bind_inv H. bind_inv H. inversion H; subst.
  refine (mapM_post _ valid_image _ _ _ _ Hv Ha).
  intros x y Hx Hy. rewrite Hsz in Hy.
  exact (numpy_resize_valid_inv cv2_interpolate x y sz _ Hx Hy).
Qed.

Lemma pad_images_shape (self : SuryaEncoderImageProcessor) (sz : Size)
  (images padded : list ndarray) :
  max_size self = Some sz ->
  Forall (fun r => shape r = [3%nat; Z.to_nat (height sz); Z.to_nat (width sz)]
                   /\ 0 < width sz /\ 0 < height sz) images ->
  pad_images RECOGNITION_PAD_VALUE self images = Ok padded ->
  Forall (processed sz) padded /\ length padded = length images.
Proof.
  intros Hsz Hv H. unfold pad_images in H. rewrite Hsz in H.
  rewrite <- (length_map astype_float32 images).
  refine (mapM_post _
            (fun r => shape r = [3%nat; Z.to_nat (height sz); Z.to_nat (width sz)]
                      /\ dt r = float32 /\ 0 < width sz /\ 0 < height sz)
            (processed sz) _ _ _ _ H).
  - intros x y [Hs [Hd [Hw Hh]]] Hy.
    rewrite (pad_image_first_eq x _ _ _ sz _ ltac:(rewrite Hd; reflexivity) Hs) in Hy
      by lia.
    inversion Hy; subst. split.
    + apply (padded_first_shape x _ _ _ sz _ Hs); lia.
    + exact Hd.
  - refine (Forall_map_post _ _ _ _ _ Hv).
    intros x [Hs [Hw Hh]]. simpl. auto.
Qed.

Lemma rescale_image_processed (self : SuryaEncoderImageProcessor) (sz : Size)
  (img : ndarray) :
  processed sz img -> processed sz (rescale_image self img).
Proof.
  intros [Hs Hd]. split; [exact Hs | reflexivity].
Qed.

Lemma normalize_images_shape (self : SuryaEncoderImageProcessor) (sz : Size)
  (images outs : list ndarray) :
  Forall (processed sz) images ->
  normalize_images self images = Ok outs ->
  Forall (processed sz) outs /\ length outs = length images.
Proof.
  intros Hv H. unfold normalize_images in H.
  refine (mapM_post _ (processed sz) (processed sz) _ _ _ Hv H).
  intros x y [Hs Hd] Hy.
  destruct (normalize_first_post x y _ _ _ _ _ Hs ltac:(rewrite Hd; reflexivity) Hy)
    as [Hs' Hd'].
  split; congruence.
Qed.

Lemma forM_ext {A : Type} (f g : A -> result unit) (P : A -> Prop) (xs : list A) :
  (forall x, P x -> f x = g x) -> Forall P xs -> forM_ f xs = forM_ g xs.
Proof.
  intros Hfg HP. induction HP as [| x xs Px Pxs IH]; simpl.
  - reflexivity.
  - rewrite (Hfg x Px), IH. reflexivity.
Qed.

(** On an image with at least two axes the loop body of lines 74-75 is the
    assertion of [is_wide]. *)
Lemma wide_check_eq (img : ndarray) :
  (2 <= ndim img)%nat ->
  (s1 <- getitem (shape img) 1 ;; s0 <- getitem (shape img) 0 ;; assert (s0 <=? s1)%nat)
  = assert (is_wide img).
Proof.
  unfold ndim, is_wide, getitem. intros Hn.
  destruct (shape img) as [| h [| w rest]]; simpl in Hn; try lia.
  reflexivity.
Qed.

Lemma valid_image_ndim (img : ndarray) : valid_image img -> (2 <= ndim img)%nat.
Proof.
  intros Hv. destruct (valid_image_shape img Hv) as [H [W [Hs _]]].
  unfold ndim. rewrite Hs. simpl. lia.
Qed.

(** With the flag set, [align_images] is the comprehension followed by the
    assertion loop over its results. *)
Lemma align_images_enabled (self : SuryaEncoderImageProcessor) (sz : Size)
  (images : list ndarray) :
  do_align_long_axis self = true -> max_size self = Some sz ->
  Forall valid_image images ->
  exists aligned,
    mapM (fun image => align_long_axis image (Some sz)) images = Ok aligned
    /\ Forall valid_image aligned
    /\ length aligned = length images
    /\ align_images self images =
       (forM_ (fun img => assert (is_wide img)) aligned ;;; Ok aligned).
Proof.
  intros Hflag Hsz Hv.
  destruct (mapM_total (fun image => align_long_axis image (Some sz))
              valid_image valid_image
              (fun x Hx => align_long_axis_valid x sz Hx) images Hv)
    as [aligned [Hal [Hva Hlen]]].
  exists aligned. repeat split; try assumption.
  unfold align_images. rewrite Hflag, Hsz, Hal. cbn [bind].
  rewrite (forM_ext _ (fun img => assert (is_wide img)) valid_image aligned); auto.
  intros x Hx. apply wide_check_eq, valid_image_ndim, Hx.
Qed.

(** Under a landscape target the aligner leaves every valid image wide. *)
Lemma align_long_axis_landscape (image : ndarray) (sz : Size) :
  height sz < width sz -> valid_image image ->
  exists y, align_long_axis image (Some sz) = Ok y /\ (valid_image y /\ is_wide y = true).
Proof.
  intros Hl Hv. destruct (valid_image_shape image Hv) as [H [W [Hs [HH HW]]]].
  rewrite (align_long_axis_eq image H W [3%nat] sz Hs).
  destruct (aspect_mismatchb sz H W) eqn:E.
  - apply aspect_mismatchb_spec in E. unfold aspect_mismatch in E.
    eexists. split; [reflexivity |].
    unfold valid_image, is_wide. rewrite (rot90_3_shape image H W _ Hs).
    repeat split; auto. apply Nat.leb_le. lia.
  - assert (N : ~ aspect_mismatch sz H W)
      by (intros C; apply aspect_mismatchb_spec in C; congruence).
    unfold aspect_mismatch in N.
    exists image. split; [reflexivity |]. split; [exact Hv |].
    unfold is_wide. rewrite Hs. apply Nat.leb_le. lia.
Qed.

Lemma align_images_total (self : SuryaEncoderImageProcessor) (sz : Size)
  (images : list ndarray) :
  max_size self = Some sz -> Forall valid_image images ->
  do_align_long_axis self = false \/ height sz < width sz ->
  exists aligned, align_images self images = Ok aligned
                  /\ Forall valid_image aligned /\ length aligned = length images.
Proof.
  intros Hsz Hv Hcase. destruct (do_align_long_axis self) eqn:Hflag.
  - destruct Hcase as [C | Hl]; [discriminate |].
    destruct (mapM_total (fun image => align_long_axis image (Some sz))
                valid_image (fun y => valid_image y /\ is_wide y = true)
                (fun x Hx => align_long_axis_landscape x sz Hl Hx) images Hv)
      as [aligned [Hal [Hq Hlen]]].
    exists aligned.
    assert (Hva : Forall valid_image aligned)
      by (eapply Forall_impl; [| exact Hq]; intros a [Ha _]; exact Ha).
    assert (Hwa : Forall (fun a => is_wide a = true) aligned)
      by (eapply Forall_impl; [| exact Hq]; intros a [_ Ha]; exact Ha).
    repeat split; try assumption.
    unfold align_images. rewrite Hflag, Hsz, Hal. cbn [bind].
    rewrite (forM_ext _ (fun img => assert (is_wide img)) valid_image aligned); auto.
    + rewrite (forM_assert_pass is_wide aligned Hwa). reflexivity.
    + intros x Hx. apply wide_check_eq, valid_image_ndim, Hx.
  - exists images. unfold align_images. rewrite Hflag. auto.
Qed.

Lemma resize_images_total (self : SuryaEncoderImageProcessor) (sz : Size)
  (images : list ndarray) :
  max_size self = Some sz -> Forall valid_image images -> images <> [] ->
  0 < width sz -> 0 < height sz -> cv2.accepts (resample self) = true ->
  exists resized,
    resize_images cv2_interpolate self images = Ok resized
    /\ Forall (fun r => shape r = [3%nat; Z.to_nat (height sz); Z.to_nat (width sz)]) resized
    /\ length resized = length images.
Proof.
  intros Hsz Hv Hne Hw Hh Hf.
  destruct (mapM_total
              (fun img => numpy_resize cv2_interpolate img (Some sz) (Some (resample self)))
              valid_image
              (fun r => shape r = [3%nat; Z.to_nat (height sz); Z.to_nat (width sz)])
              (fun x Hx => numpy_resize_valid_total cv2_interpolate x sz _ Hx Hw Hh Hf)
              images Hv)
    as [resized [Hr [Hq Hlen]]].
  exists resized. repeat split; try assumption.
  unfold resize_images. rewrite Hsz, Hr. cbn [bind].
  destruct resized as [| r0 rs].
  - destruct images; [congruence | discriminate Hlen].
  - inversion Hq as [| ? ? Hs0 _]; subst.
    unfold getitem. cbn [nth_error bind]. rewrite Hs0. reflexivity.
Qed.

Lemma pad_images_total (self : SuryaEncoderImageProcessor) (sz : Size)
  (images : list ndarray) :
  max_size self = Some sz -> 0 < width sz -> 0 < height sz ->
  Forall (fun r => shape r = [3%nat; Z.to_nat (height sz); Z.to_nat (width sz)]) images ->
  exists padded,
    pad_images RECOGNITION_PAD_VALUE self images = Ok padded
    /\ Forall (processed sz) padded /\ length padded = length images.
Proof.
  intros Hsz Hw Hh Hv. unfold pad_images. rewrite Hsz.
  rewrite <- (length_map astype_float32 images).
  apply (mapM_total _
           (fun r => shape r = [3%nat; Z.to_nat (height sz); Z.to_nat (width sz)]
                     /\ dt r = float32)).
  - intros x [Hs Hd].
    rewrite (pad_image_first_eq x _ _ _ sz _ ltac:(rewrite Hd; reflexivity) Hs) by lia.
    eexists. split; [reflexivity |]. split.
    + apply (padded_first_shape x _ _ _ sz _ Hs); lia.
    + exact Hd.
  - refine (Forall_map_post _ _ _ _ _ Hv). intros x Hs. simpl. auto.
Qed.

Lemma normalize_images_total (self : SuryaEncoderImageProcessor) (sz : Size)
  (images : list ndarray) :
  stat_fits 3 (image_mean self) -> stat_fits 3 (image_std self) ->
  Forall (processed sz) images ->
  exists outs, normalize_images self images = Ok outs
               /\ Forall (processed sz) outs /\ length outs = length images.
Proof.
  intros Hm Hd Hv. unfold normalize_images.
  apply (mapM_total _ (processed sz) (processed sz)); auto.
  intros x [Hs Hdt].
  destruct (normalize_first_total x _ _ _ _ _ Hs ltac:(rewrite Hdt; reflexivity) Hm Hd)
    as [out [Ho [Hs' Hd']]].
  exists out. split; [exact Ho |]. split; congruence.
Qed.

(** For a valid, non-empty batch the first assertion passes and
    [process_inner] is the sequence of its stages. *)
Lemma process_inner_valid_eq (self : SuryaEncoderImageProcessor) (images : list ndarray) :
  images <> [] -> Forall valid_image images ->
  process_inner cv2_interpolate RECOGNITION_PAD_VALUE self images =
  (aligned <- align_images self images ;;
   resized <- resize_images cv2_interpolate self aligned ;;
   padded <- pad_images RECOGNITION_PAD_VALUE self resized ;;
   rescale_check self padded ;;;
   outs <- normalize_images self (rescale_images self padded) ;;
   Ok outs).
Proof.
  intros Hne Hv. destruct images as [| img rest]; [congruence |].
  inversion Hv as [| ? ? Hi _]; subst.
  destruct (valid_image_shape img Hi) as [H [W [Hs _]]].
  unfold process_inner. unfold getitem at 1. cbn [nth_error bind].
  rewrite Hs. reflexivity.
Qed.

End PipelineLemmas.

Lemma Forall2_Exists_transfer {A B : Type} (R : A -> B -> Prop)
  (P : A -> Prop) (Q : B -> Prop) :
  (forall x y, P x -> R x y -> Q y) ->
  forall xs ys, Forall2 R xs ys -> Exists P xs -> Exists Q ys.
Proof.
  intros HPQ xs ys HR. induction HR as [| x y xs ys Rxy _ IH]; intros HE.
  - inversion HE.
  - inversion HE; subst.
    + apply Exists_cons_hd. eauto.
    + apply Exists_cons_tl. auto.
Qed.

(** Under a portrait target a portrait image is left as it is. *)
Lemma align_long_axis_portrait (image y : ndarray) (sz : Size) :
  width sz < height sz -> is_portrait image ->
  align_long_axis image (Some sz) = Ok y -> is_wide y = false.
Proof.
  unfold is_portrait. intros Hp Hi Hy.
  destruct (shape image) as [| H [| W rest]] eqn:Hs; try contradiction.
  rewrite (align_long_axis_eq image H W rest sz Hs) in Hy.
  destruct (aspect_mismatchb sz H W) eqn:E.
  - apply aspect_mismatchb_spec in E. unfold aspect_mismatch in E. lia.
  - inversion Hy; subst. unfold is_wide. rewrite Hs. apply Nat.leb_gt. exact Hi.
Qed.

(* ================================================================== *)
(** ** Shape invariant *)

(** C1. For a batch of valid 3-channel channel-last images of any heights
    and widths and any target size, every output [process_inner] returns
    has shape (3, target height, target width) and dtype float32, one
    output per input, all of the same shape; and an output is returned for
    every non-empty valid batch and positive target size whenever the
    statistics fit three channels, the alignment is disabled or the target
    is landscape, the interpolation flag is one OpenCV knows, and the
    configured numbers (pad value, rescale factor, mean, std) are floats or
    ints NumPy converts to floats. *)
Theorem C1_shape_invariant
  (cv2_interpolate : Z -> ndarray -> nat -> nat -> list nat -> sample)
  (pad_value : pynum) (self : SuryaEncoderImageProcessor) (sz : Size)
  (images : list ndarray) :
  max_size self = Some sz -> Forall valid_image images ->
  (forall outs, process_inner cv2_interpolate pad_value self images = Ok outs ->
     length outs = length images /\ Forall (processed sz) outs)
  /\ (images <> [] -> 0 < width sz -> 0 < height sz ->
      stat_fits 3 (image_mean self) -> stat_fits 3 (image_std self) ->
      do_align_long_axis self = false \/ height sz < width sz ->
      cv2.accepts (resample self) = true ->
      pynum_in_range pad_value -> pynum_in_range (rescale_factor self) ->
      stat_in_range (image_mean self) -> stat_in_range (image_std self) ->
      exists outs, process_inner cv2_interpolate pad_value self images = Ok outs
                   /\ length outs = length images /\ Forall (processed sz) outs).
Proof.
  intros Hsz Hv. split.
  - intros outs H.
    destruct (process_inner_stages _ _ _ _ _ H) as [al [rs [pd [Ha [Hr [Hp Hn]]]]]].
    destruct (align_images_valid self sz _ _ Hsz Hv Ha) as [Va La].
    destruct (resize_images_shape _ self sz _ _ Hsz Va Hr) as [Vr Lr].
    destruct (pad_images_shape _ self sz _ _ Hsz Vr Hp) as [Vp Lp].
    assert (Vs : Forall (processed sz) (rescale_images self pd))
      by (refine (Forall_map_post _ _ _ _ _ Vp); intros x Hx;
          apply rescale_image_processed; exact Hx).
    destruct (normalize_images_shape self sz _ _ Vs Hn) as [Vn Ln].
    split; [| exact Vn].
    unfold rescale_images in Ln. rewrite length_map in Ln. congruence.
  - intros Hne Hw Hh Hm Hd Hcase Hflag _ Hfac _ _.
    rewrite (process_inner_valid_eq _ _ self images Hne Hv).
    destruct (align_images_total self sz images Hsz Hv Hcase) as [al [Ea [Va La]]].
    assert (Hne' : al <> [])
      by (destruct al; [destruct images; [congruence | discriminate La] | discriminate]).
    destruct (resize_images_total cv2_interpolate self sz al Hsz Va Hne' Hw Hh Hflag)
      as [rs [Er [Vr Lr]]].
    destruct (pad_images_total pad_value self sz rs Hsz Hw Hh Vr) as [pd [Ep [Vp Lp]]].
    assert (Vs : Forall (processed sz) (rescale_images self pd))
      by (refine (Forall_map_post _ _ _ _ _ Vp); intros x Hx;
          apply rescale_image_processed; exact Hx).
    destruct (normalize_images_total self sz _ Hm Hd Vs) as [outs [En [Vn Ln]]].
    exists outs. rewrite Ea. cbn [bind]. rewrite Er. cbn [bind].
    rewrite Ep. cbn [bind].
    rewrite (rescale_check_fits self pd (pynum_in_range_fits _ Hfac)). cbn [bind].
    rewrite En. cbn [bind].
    split; [reflexivity |]. split; [| exact Vn].
    unfold rescale_images in Ln. rewrite length_map in Ln. congruence.
Qed.

(* ================================================================== *)
(** ** The alignment assertion *)

(** C10. With alignment enabled, [process_inner] asserts width >= height
    for every image after alignment whatever the target's orientation: a
    batch with an aligned image taller than wide raises the assertion
    error, and a returned result means every aligned image was wide.
    Consequently, under a portrait target every batch that holds a
    portrait image raises the assertion error. *)
Theorem C10_portrait_target_asserts
  (cv2_interpolate : Z -> ndarray -> nat -> nat -> list nat -> sample)
  (pad_value : pynum) (self : SuryaEncoderImageProcessor) (sz : Size)
  (images : list ndarray) :
  do_align_long_axis self = true -> max_size self = Some sz ->
  Forall valid_image images ->
  (exists aligned,
     mapM (fun image => align_long_axis image (Some sz)) images = Ok aligned
     /\ (Exists (fun a => is_wide a = false) aligned ->
         process_inner cv2_interpolate pad_value self images = Raise AssertionError)
     /\ (forall outs, process_inner cv2_interpolate pad_value self images = Ok outs ->
         Forall (fun a => is_wide a = true) aligned))
  /\ (width sz < height sz -> Exists is_portrait images ->
      process_inner cv2_interpolate pad_value self images = Raise AssertionError).
Proof.
  intros Hflag Hsz Hv.
  destruct (align_images_enabled self sz images Hflag Hsz Hv)
    as [aligned [Hal [Hva [Hlen Heq]]]].
  assert (Hfail : Exists (fun a => is_wide a = false) aligned ->
                  process_inner cv2_interpolate pad_value self images = Raise AssertionError).
  { intros HE.
    assert (Hne : images <> [])
      by (destruct images; [destruct aligned; [inversion HE | discriminate Hlen]
                           | discriminate]).
    rewrite (process_inner_valid_eq _ _ self images Hne Hv), Heq.
    rewrite (forM_assert_fail is_wide aligned HE). reflexivity. }
  split.
  - exists aligned. split; [exact Hal |]. split; [exact Hfail |].
    intros outs H.
    destruct (process_inner_stages _ _ _ _ _ H) as [al [rs [pd [Ha _]]]].
    rewrite Heq in Ha. bind_inv Ha.
    apply (forM_assert_Ok_inv is_wide aligned a Ha0).
  - intros Hp HE. apply Hfail.
    apply (Forall2_Exists_transfer
             (fun x y => align_long_axis x (Some sz) = Ok y) is_portrait
             (fun a => is_wide a = false)) with (xs := images).
    + intros x y Hx Hy. exact (align_long_axis_portrait x y sz Hp Hx Hy).
    + apply mapM_pointwise. exact Hal.
    + exact HE.
Qed.

(* ================================================================== *)
(** ** The orientation aligner *)

Lemma rot90_3_item (m : ndarray) (H W : nat) (rest : list nat) (i j : nat) (r : list nat) :
  shape m = H :: W :: rest ->
  item (flip_axis1 (swap_axes01 m)) (i :: j :: r) = item m ((H - 1 - j)%nat :: i :: r).
Proof.
  intros Hs. unfold flip_axis1, swap_axes01. rewrite Hs. reflexivity.
Qed.

Lemma rot90_3_dt (m : ndarray) (H W : nat) (rest : list nat) :
  shape m = H :: W :: rest -> dt (flip_axis1 (swap_axes01 m)) = dt m.
Proof.
  intros Hs. unfold flip_axis1, swap_axes01. rewrite Hs. reflexivity.
Qed.

Lemma rot90_1_shape (m : ndarray) (H W : nat) (rest : list nat) :
  shape m = H :: W :: rest -> shape (swap_axes01 (flip_axis1 m)) = W :: H :: rest.
Proof.
  intros Hs. unfold flip_axis1, swap_axes01. rewrite Hs. reflexivity.
Qed.

Lemma rot90_1_item (m : ndarray) (H W : nat) (rest : list nat) (i j : nat) (r : list nat) :
  shape m = H :: W :: rest ->
  item (swap_axes01 (flip_axis1 m)) (i :: j :: r) = item m (j :: (W - 1 - i)%nat :: r).
Proof.
  intros Hs. unfold flip_axis1, swap_axes01. rewrite Hs. reflexivity.
Qed.

Lemma rot90_1_dt (m : ndarray) (H W : nat) (rest : list nat) :
  shape m = H :: W :: rest -> dt (swap_axes01 (flip_axis1 m)) = dt m.
Proof.
  intros Hs. unfold flip_axis1, swap_axes01. rewrite Hs. reflexivity.
Qed.

Lemma in_bounds_2 (a b : nat) (rest idx : list nat) :
  in_bounds (a :: b :: rest) idx ->
  exists i j r, idx = i :: j :: r /\ (i < a)%nat /\ (j < b)%nat.
Proof.
  destruct idx as [| i [| j r]]; simpl; try tauto.
  intros [Hi [Hj _]]. exists i, j, r. auto.
Qed.

(** [np.rot90(m, 3)] is the clockwise quarter turn. *)
Lemma rot90_3_is_cw (m : ndarray) (H W : nat) (rest : list nat) :
  shape m = H :: W :: rest -> same_array (flip_axis1 (swap_axes01 m)) (rotate_cw m).
Proof.
  intros Hs. unfold same_array.
  rewrite (rot90_3_shape m H W rest Hs), (rot90_3_dt m H W rest Hs).
  unfold rotate_cw. rewrite Hs. cbn [shape dt item].
  repeat split. intros idx Hb.
  destruct (in_bounds_2 _ _ _ _ Hb) as [i [j [r [E _]]]]. subst idx.
  apply (rot90_3_item m H W rest i j r Hs).
Qed.

(** [np.rot90(m, 1)], the library's primitive, is the counter-clockwise
    quarter turn. *)
Lemma rot90_1_is_ccw (m : ndarray) (H W : nat) (rest : list nat) :
  shape m = H :: W :: rest -> same_array (swap_axes01 (flip_axis1 m)) (rotate_ccw m).
Proof.
  intros Hs. unfold same_array.
  rewrite (rot90_1_shape m H W rest Hs), (rot90_1_dt m H W rest Hs).
  unfold rotate_ccw. rewrite Hs. cbn [shape dt item].
  repeat split. intros idx Hb.
  destruct (in_bounds_2 _ _ _ _ Hb) as [i [j [r [E _]]]]. subst idx.
  apply (rot90_1_item m H W rest i j r Hs).
Qed.

(** C5. The aligner rotates an image exactly when the target is portrait
    and the image landscape, or the target landscape and the image
    portrait (strict inequalities): then its result is [np.rot90(image, 3)],
    whose first two extents are exchanged; otherwise it returns the image
    itself.  Square images and square targets are left unrotated, and with
    the alignment flag disabled the stage returns every batch unchanged. *)
Theorem C5_aligner_condition (image : ndarray) (H W : nat) (rest : list nat) (sz : Size) :
  shape image = H :: W :: rest ->
  (aspect_mismatch sz H W ->
     align_long_axis image (Some sz) = np_rot90 image 3
     /\ exists r, align_long_axis image (Some sz) = Ok r
                  /\ shape r = W :: H :: rest /\ shape r <> shape image)
  /\ (align_long_axis image (Some sz) = Ok image <-> ~ aspect_mismatch sz H W)
  /\ (H = W -> align_long_axis image (Some sz) = Ok image)
  /\ (width sz = height sz -> align_long_axis image (Some sz) = Ok image)
  /\ (forall self images,
        do_align_long_axis self = false -> align_images self images = Ok images).
Proof.
  intros Hs.
  pose proof (align_long_axis_eq image H W rest sz Hs) as E.
  pose proof (aspect_mismatchb_spec sz H W) as B.
  assert (Hrot : aspect_mismatch sz H W ->
                 align_long_axis image (Some sz) = np_rot90 image 3
                 /\ exists r, align_long_axis image (Some sz) = Ok r
                              /\ shape r = W :: H :: rest /\ shape r <> shape image).
  { intros M. apply B in M. rewrite M in E. split.
    - rewrite (np_rot90_3 image H W rest Hs). exact E.
    - eexists. split; [exact E |].
      rewrite (rot90_3_shape image H W rest Hs), Hs. split; [reflexivity |].
      apply B in M. unfold aspect_mismatch in M. intros C. inversion C. lia. }
  assert (Hkeep : ~ aspect_mismatch sz H W -> align_long_axis image (Some sz) = Ok image).
  { intros N. destruct (aspect_mismatchb sz H W) eqn:Eb; [| exact E].
    exfalso. apply N, B. reflexivity. }
  split; [exact Hrot |]. split; [| split; [| split]].
  - split; [| exact Hkeep].
    intros Hid M. destruct (Hrot M) as [_ [r [Hr [_ Hne]]]].
    rewrite Hid in Hr. inversion Hr; subst. apply Hne. reflexivity.
  - intros Heq. apply Hkeep. unfold aspect_mismatch. lia.
  - intros Heq. apply Hkeep. unfold aspect_mismatch. lia.
  - intros self images Hflag. unfold align_images. rewrite Hflag. reflexivity.
Qed.

(** C4, as the code has it.  When the aligner decides to rotate, it turns
    the image 90 degrees clockwise: its result is [np.rot90(image, 3)], the
    same array as three successive applications of the library's primitive
    [np.rot90(., 1)], which is the 90-degree counter-clockwise turn. *)
Theorem C4_rotation_is_clockwise (image : ndarray) (H W : nat) (rest : list nat)
  (sz : Size) :
  shape image = H :: W :: rest -> aspect_mismatch sz H W ->
  rotates_clockwise image sz
  /\ exists r q1 q2 q3,
       align_long_axis image (Some sz) = Ok r
       /\ np_rot90 image 1 = Ok q1 /\ same_array q1 (rotate_ccw image)
       /\ np_rot90 q1 1 = Ok q2
       /\ np_rot90 q2 1 = Ok q3
       /\ same_array r q3.
Proof.
  intros Hs M.
  assert (E : align_long_axis image (Some sz) = Ok (flip_axis1 (swap_axes01 image))).
  { rewrite (align_long_axis_eq image H W rest sz Hs).
    apply aspect_mismatchb_spec in M. rewrite M. reflexivity. }
  split.
  - eexists. split; [exact E |]. exact (rot90_3_is_cw image H W rest Hs).
  - set (q1 := swap_axes01 (flip_axis1 image)).
    set (q2 := swap_axes01 (flip_axis1 q1)).
    set (q3 := swap_axes01 (flip_axis1 q2)).
    assert (S1 : shape q1 = W :: H :: rest) by exact (rot90_1_shape image H W rest Hs).
    assert (S2 : shape q2 = H :: W :: rest) by exact (rot90_1_shape q1 W H rest S1).
    assert (S3 : shape q3 = W :: H :: rest) by exact (rot90_1_shape q2 H W rest S2).
    exists (flip_axis1 (swap_axes01 image)), q1, q2, q3.
    split; [exact E |].
    split; [exact (np_rot90_1 image H W rest Hs) |].
    split; [exact (rot90_1_is_ccw image H W rest Hs) |].
    split; [exact (np_rot90_1 q1 W H rest S1) |].
    split; [exact (np_rot90_1 q2 H W rest S2) |].
    unfold same_array.
    rewrite (rot90_3_shape image H W rest Hs), S3.
    split; [reflexivity |]. split.
    + rewrite (rot90_3_dt image H W rest Hs).
      unfold q3. rewrite (rot90_1_dt q2 H W rest S2).
      unfold q2. rewrite (rot90_1_dt q1 W H rest S1).
      unfold q1. rewrite (rot90_1_dt image H W rest Hs). reflexivity.
    + intros idx Hb.
      destruct (in_bounds_2 _ _ _ _ Hb) as [i [j [r [Ei [Hi Hj]]]]]. subst idx.
      rewrite (rot90_3_item image H W rest i j r Hs).
      unfold q3. rewrite (rot90_1_item q2 H W rest i j r S2).
      unfold q2. rewrite (rot90_1_item q1 W H rest j (W - 1 - i)%nat r S1).
      unfold q1. rewrite (rot90_1_item image H W rest _ _ r Hs).
      replace (W - 1 - (W - 1 - i))%nat with i by lia. reflexivity.
Qed.

(** C4 as stated fails: for the one-row, two-pixel image under a portrait
    target the aligner does rotate, and the pixel that ends up on top is
    the left (dark) one, as a clockwise turn puts it; a counter-clockwise
    turn would put the right (bright) one there. *)
Lemma C4_counterexample :
  aspect_mismatch portrait_1x2 1 2
  /\ ~ rotates_counter_clockwise wide_1x2 portrait_1x2.
Proof.
  split.
  - unfold aspect_mismatch. simpl. lia.
  - intros [r [Hr [_ [_ Hitem]]]].
    rewrite (align_long_axis_eq wide_1x2 1 2 [3%nat] portrait_1x2 eq_refl) in Hr.
    inversion Hr; subst r. clear Hr.
    specialize (Hitem [0; 0; 0]%nat).
    assert (Hb : in_bounds (shape (flip_axis1 (swap_axes01 wide_1x2))) [0; 0; 0]%nat)
      by (simpl; lia).
    specialize (Hitem Hb). vm_compute in Hitem. discriminate Hitem.
Qed.

(* ================================================================== *)
(** ** The padder: amounts, precondition, enlargement *)

Lemma fill_fits_storable (d : dtype) (v : pynum) :
  fill_fits d v -> storable d v = true.
Proof.
  destruct d, v; simpl; try reflexivity; try contradiction.
  intros Hz. apply andb_true_iff. rewrite !Z.leb_le. exact Hz.
Qed.

Lemma tf_pad_3d (image : ndarray) (d0 d1 d2 : nat) (fmt : ChannelDimension)
  (t b l r : Z) (v : pynum) :
  storable (dt image) v = true ->
  shape image = [d0; d1; d2] -> 0 <= t -> 0 <= b -> 0 <= l -> 0 <= r ->
  exists out,
    tf_pad image ((t, b), (l, r)) v fmt = Ok out
    /\ dt out = dt image
    /\ shape out =
       match fmt with
       | FIRST => [d0; Z.to_nat t + d1 + Z.to_nat b; Z.to_nat l + d2 + Z.to_nat r]
       | LAST => [Z.to_nat t + d0 + Z.to_nat b; Z.to_nat l + d1 + Z.to_nat r; d2]
       end%nat.
Proof.
  intros Hst Hs Ht Hb Hl Hr. unfold tf_pad, np_pad, ndim. rewrite Hs, Hst.
  assert (Et : (t <? 0) = false) by (apply Z.ltb_ge; lia).
  assert (Eb : (b <? 0) = false) by (apply Z.ltb_ge; lia).
  assert (El : (l <? 0) = false) by (apply Z.ltb_ge; lia).
  assert (Er : (r <? 0) = false) by (apply Z.ltb_ge; lia).
  destruct fmt; cbn [length Nat.eqb negb existsb fst snd map];
    rewrite Et, Eb, El, Er; cbn [Z.ltb Z.compare orb];
    eexists; (split; [reflexivity |]); (split; [reflexivity |]);
    cbn [shape pad_shape]; rewrite ?Nat.add_0_r; reflexivity.
Qed.

Lemma get_image_size_3d (image : ndarray) (d0 d1 d2 : nat) (fmt : ChannelDimension) :
  shape image = [d0; d1; d2] ->
  get_image_size image fmt = Ok (match fmt with FIRST => (d1, d2) | LAST => (d0, d1) end).
Proof.
  intros Hs. unfold get_image_size, getitem_neg. rewrite Hs. destruct fmt; reflexivity.
Qed.

(** C6. For deltas [dw >= 0] and [dh >= 0] the padder passes the library
    [pad_left = dw // 2], [pad_right = dw - pad_left], [pad_top = dh // 2],
    [pad_bottom = dh - pad_top]: equal halves for an even delta, the larger
    half at the bottom / right for an odd one; and, for a fill value the
    array holds, in the padded channel-first result the source pixel
    (i, j) sits at row [pad_top + i], column [pad_left + j]. *)
Theorem C6_padding_split (image : ndarray) (sz : Size) (fmt : ChannelDimension)
  (v : pynum) (H W : nat) :
  get_image_size image fmt = Ok (H, W) ->
  0 <= width sz - Z.of_nat W -> 0 <= height sz - Z.of_nat H ->
  let dw := width sz - Z.of_nat W in
  let dh := height sz - Z.of_nat H in
  exists pad_top pad_bottom pad_left pad_right,
    pad_amounts dh dw = ((pad_top, pad_bottom), (pad_left, pad_right))
    /\ pad_image image (Some sz) fmt v
       = tf_pad image ((pad_top, pad_bottom), (pad_left, pad_right)) v fmt
    /\ pad_left = dw / 2 /\ pad_right = dw - pad_left
    /\ pad_top = dh / 2 /\ pad_bottom = dh - pad_top
    /\ (Z.even dw = true -> pad_left = pad_right)
    /\ (Z.even dh = true -> pad_top = pad_bottom)
    /\ (Z.odd dw = true -> pad_right = pad_left + 1)
    /\ (Z.odd dh = true -> pad_bottom = pad_top + 1)
    /\ 0 <= pad_left <= pad_right /\ 0 <= pad_top <= pad_bottom
    /\ (forall C, fmt = FIRST -> shape image = [C; H; W] ->
        fill_fits (dt image) v ->
        exists out,
          pad_image image (Some sz) fmt v = Ok out
          /\ forall c i j, (c < C)%nat -> (i < H)%nat -> (j < W)%nat ->
               item out [c; (Z.to_nat pad_top + i)%nat; (Z.to_nat pad_left + j)%nat]
               = item image [c; i; j]).
Proof.
  intros Hg Hw Hh dw dh.
  exists (dh / 2), (dh - dh / 2), (dw / 2), (dw - dw / 2).
  pose proof (half_split dw Hw) as Sw. pose proof (half_split dh Hh) as Sh.
  split; [reflexivity |]. split.
  { rewrite (pad_image_unfold image sz fmt v H W Hg). fold dw dh.
    replace ((dw >=? 0) && (dh >=? 0)) with true
      by (symmetry; apply andb_true_iff; rewrite !Z.geb_leb, !Z.leb_le; lia).
    reflexivity. }
  repeat (split; [reflexivity |]).
  split; [intros E; symmetry; apply half_even, E |].
  split; [intros E; symmetry; apply half_even, E |].
  split; [apply half_odd |]. split; [apply half_odd |].
  split; [lia |]. split; [lia |].
  intros C Hf Hs Hfill. subst fmt.
  rewrite (pad_image_first_eq image C H W sz v (fill_fits_storable _ _ Hfill) Hs) by lia.
  fold dw dh.
  eexists. split; [reflexivity |].
  intros c i j Hc Hi Hj.
  rewrite (padded_first_item image C H W _ _ _ _ v c _ _ Hs Hc).
  replace ((Z.to_nat (dh / 2) <=? Z.to_nat (dh / 2) + i)
           && (Z.to_nat (dh / 2) + i <? Z.to_nat (dh / 2) + H)
           && ((Z.to_nat (dw / 2) <=? Z.to_nat (dw / 2) + j)
               && (Z.to_nat (dw / 2) + j <? Z.to_nat (dw / 2) + W)))%nat with true.
  - repeat f_equal; lia.
  - symmetry. rewrite !andb_true_iff, !Nat.leb_le, !Nat.ltb_lt. lia.
Qed.

(** C8. The padder raises the assertion error whenever the target is
    smaller than the input in width or in height, and, for a fill value the
    array holds, returns an array of the target height and width, same
    dtype, whenever the target is at least the input in both; for a
    channel-first image the result is a
    pure enlargement: the source items unchanged inside a window of the
    source's size, the fill value everywhere else. *)
Theorem C8_padder_precondition (image : ndarray) (sz : Size) (fmt : ChannelDimension)
  (v : pynum) (H W : nat) :
  get_image_size image fmt = Ok (H, W) ->
  (width sz < Z.of_nat W \/ height sz < Z.of_nat H ->
   pad_image image (Some sz) fmt v = Raise AssertionError)
  /\ (Z.of_nat W <= width sz -> Z.of_nat H <= height sz -> ndim image = 3%nat ->
      fill_fits (dt image) v ->
      exists out,
        pad_image image (Some sz) fmt v = Ok out
        /\ get_image_size out fmt = Ok (Z.to_nat (height sz), Z.to_nat (width sz))
        /\ dt out = dt image
        /\ (forall C, fmt = FIRST -> shape image = [C; H; W] ->
            exists top left,
              shape out = [C; Z.to_nat (height sz); Z.to_nat (width sz)]
              /\ (top + H <= Z.to_nat (height sz))%nat
              /\ (left + W <= Z.to_nat (width sz))%nat
              /\ (forall c i j, (c < C)%nat -> (i < H)%nat -> (j < W)%nat ->
                    item out [c; (top + i)%nat; (left + j)%nat] = item image [c; i; j])
              /\ (forall c i j, (c < C)%nat ->
                    (i < top \/ top + H <= i \/ j < left \/ left + W <= j)%nat ->
                    item out [c; i; j] = store (dt image) v))).
Proof.
  intros Hg. split.
  - intros Hneg. rewrite (pad_image_unfold image sz fmt v H W Hg).
    replace ((width sz - Z.of_nat W >=? 0) && (height sz - Z.of_nat H >=? 0)) with false;
      [reflexivity |].
    symmetry. apply andb_false_iff. rewrite !Z.geb_leb, !Z.leb_gt. lia.
  - intros Hw Hh Hn Hfill.
    pose proof (fill_fits_storable _ _ Hfill) as Hst.
    set (dw := width sz - Z.of_nat W). set (dh := height sz - Z.of_nat H).
    pose proof (half_split dw ltac:(subst dw; lia)) as Sw.
    pose proof (half_split dh ltac:(subst dh; lia)) as Sh.
    unfold ndim in Hn.
    destruct (shape image) as [| d0 [| d1 [| d2 [| ? ?]]]] eqn:Hs; try discriminate Hn.
    rewrite (get_image_size_3d image d0 d1 d2 fmt Hs) in Hg.
    destruct (tf_pad_3d image d0 d1 d2 fmt (dh / 2) (dh - dh / 2) (dw / 2) (dw - dw / 2) v
                Hst Hs
                ltac:(lia) ltac:(lia) ltac:(lia) ltac:(lia)) as [out [Eo [Hd Hso]]].
    assert (Ep : pad_image image (Some sz) fmt v = Ok out).
    { rewrite (pad_image_unfold image sz fmt v H W); [| rewrite <- Hg; apply get_image_size_3d, Hs].
      fold dw dh.
      replace ((dw >=? 0) && (dh >=? 0)) with true
        by (symmetry; apply andb_true_iff; rewrite !Z.geb_leb, !Z.leb_le; lia).
      exact Eo. }
    exists out. split; [exact Ep |]. split; [| split; [exact Hd |]].
    + destruct fmt; inversion Hg; subst;
        rewrite (get_image_size_3d out _ _ _ _ Hso); do 2 f_equal; subst dw dh; lia.
    + intros C Hf HsC. subst fmt. inversion HsC; subst d0 d1 d2.
      rewrite (pad_image_first_eq image C H W sz v Hst Hs) in Ep by lia.
      fold dw dh in Ep. inversion Ep; subst out. clear Ep Eo.
      exists (Z.to_nat (dh / 2)), (Z.to_nat (dw / 2)).
      split; [apply (padded_first_shape image C H W sz v Hs); lia |].
      split; [subst dh; lia |]. split; [subst dw; lia |]. split.
      * intros c i j Hc Hi Hj.
        rewrite (padded_first_item image C H W _ _ _ _ v c _ _ Hs Hc).
        match goal with |- (if ?b then _ else _) = _ => replace b with true end.
        -- repeat f_equal; lia.
        -- symmetry. rewrite !andb_true_iff, !Nat.leb_le, !Nat.ltb_lt. lia.
      * intros c i j Hc Hout.
        rewrite (padded_first_item image C H W _ _ _ _ v c _ _ Hs Hc).
        match goal with |- (if ?b then _ else _) = _ => replace b with false end;
          [reflexivity |].
        symmetry. rewrite !andb_false_iff, !Nat.leb_gt, !Nat.ltb_ge. lia.
Qed.

(* ================================================================== *)
(** ** The channel assertion *)

(** C7, on the code.  The channel assertion of [process_inner] reads the
    first image only.  A single RGBA or single-channel image does raise the
    assertion error; but behind an RGB first image an RGBA image is
    processed to a 4-channel output when the statistics are scalars, raises
    a [ValueError] in [normalize] under the default per-channel statistics,
    and a single-channel image raises a [ValueError] in the transpose. *)
Theorem C7_only_first_image_checked
  (cv2_interpolate : Z -> ndarray -> nat -> nat -> list nat -> sample)
  (pad_value : pynum) :
  process_inner cv2_interpolate pad_value (default_processor square_2x2 false) [rgba_1x1]
    = Raise AssertionError
  /\ process_inner cv2_interpolate pad_value (default_processor square_2x2 false) [gray_1x1]
    = Raise AssertionError
  /\ (exists o1 o2,
        process_inner cv2_interpolate pad_value (scalar_processor square_2x2)
          [rgb_1x1; rgba_1x1] = Ok [o1; o2]
        /\ shape o1 = [3; 2; 2]%nat /\ shape o2 = [4; 2; 2]%nat)
  /\ process_inner cv2_interpolate pad_value (default_processor square_2x2 false)
       [rgb_1x1; rgba_1x1] = Raise ValueError
  /\ process_inner cv2_interpolate pad_value (default_processor square_2x2 false)
       [rgb_1x1; gray_1x1] = Raise ValueError.
Proof.
  split; [reflexivity |]. split; [reflexivity |].
  split; [eexists _, _; split; [reflexivity | split; reflexivity] |].
  split; reflexivity.
Qed.

(* ================================================================== *)
(** ** The interpolation flag of the resize stage *)

(** C2, as the code has it.  A processor built by [__init__] resizes every
    image by calling [numpy_resize] with its [resample] setting, which is
    Pillow's [Image.Resampling.BILINEAR] (the integer 2) and not
    [cv2.INTER_LANCZOS4]; the Lanczos flag is only what [numpy_resize]
    falls back to when it is called without an interpolation argument.
    Every valid image of a non-empty batch is resized to exactly the target
    height and width, channel-first. *)
Theorem C2_resize_flag (sz : Size) (align : option bool) (factor : option pynum)
  (mean std : option stat) :
  let self := __init__ (Some sz) align factor mean std in
  resample self = Resampling.BILINEAR
  /\ Resampling.BILINEAR <> cv2.INTER_LANCZOS4
  /\ resize_stage_uses Resampling.BILINEAR self
  /\ (forall cv2_interpolate img,
        numpy_resize cv2_interpolate img (Some sz) None
        = numpy_resize cv2_interpolate img (Some sz) (Some cv2.INTER_LANCZOS4))
  /\ (forall cv2_interpolate images,
        images <> [] -> Forall valid_image images -> 0 < width sz -> 0 < height sz ->
        exists resized,
          resize_images cv2_interpolate self images = Ok resized
          /\ Forall (fun r => shape r = [3%nat; Z.to_nat (height sz); Z.to_nat (width sz)])
                    resized
          /\ length resized = length images).
Proof.
  intros self. split; [reflexivity |]. split; [discriminate |].
  split; [| split].
  - intros K images resized H. unfold resize_images in H.
    bind_inv H. bind_inv H. bind_inv H. bind_inv H. inversion H; subst.
    exact (mapM_pointwise _ _ _ Ha).
  - intros K img. reflexivity.
  - intros K images Hne Hv Hw Hh.
    exact (resize_images_total K self sz images eq_refl Hv Hne Hw Hh eq_refl).
Qed.

(** C2 as stated fails: with a kernel that reports the flag it is called
    with, the resize stage of the default processor returns samples that
    read 2, where a call with [cv2.INTER_LANCZOS4] returns samples that
    read 4. *)
Lemma C2_counterexample :
  ~ resize_stage_uses cv2.INTER_LANCZOS4 (default_processor square_2x2 false).
Proof.
  intros U.
  assert (E : exists r, resize_images flag_probe (default_processor square_2x2 false)
                          [rgb_1x1] = Ok [r]
                        /\ item r [0; 0; 0]%nat = Int 2)
    by (eexists; split; reflexivity).
  destruct E as [r [E Hr]].
  specialize (U flag_probe [rgb_1x1] [r] E).
  inversion U as [| ? ? ? ? Hn _]; subst.
  apply (f_equal (fun x => match x with
                           | Ok a => item a [0; 0; 0]%nat
                           | Raise _ => Int 0
                           end)) in Hn.
  change (Int 4 = item r [0; 0; 0]%nat) in Hn. rewrite Hr in Hn. discriminate Hn.
Qed.

(* ================================================================== *)
(** ** The default statistics *)

(** C3, as the code has it.  When no mean and no std are supplied,
    [__init__] takes [IMAGENET_STANDARD_MEAN] and [IMAGENET_STANDARD_STD]
    of the transformers library, which are exactly 0.5 on each of the three
    channels; a supplied mean or std is kept as given.  The per-channel
    ImageNet statistics (0.485, 0.456, 0.406) and (0.229, 0.224, 0.225) are
    that library's [IMAGENET_DEFAULT_MEAN] and [IMAGENET_DEFAULT_STD],
    which are not the defaults here. *)
Theorem C3_default_statistics (size : option Size) (align : option bool)
  (factor : option pynum) :
  let self := __init__ size align factor None None in
  image_mean self = IMAGENET_STANDARD_MEAN
  /\ image_std self = IMAGENET_STANDARD_STD
  /\ (exists h, (SF2Q h == 1 # 2)%Q
                /\ image_mean self = PerChannel [PyFloat h; PyFloat h; PyFloat h]
                /\ image_std self = PerChannel [PyFloat h; PyFloat h; PyFloat h])
  /\ (forall m s, image_mean (__init__ size align factor (Some m) (Some s)) = m
                  /\ image_std (__init__ size align factor (Some m) (Some s)) = s)
  /\ image_mean self <> IMAGENET_DEFAULT_MEAN
  /\ image_std self <> IMAGENET_DEFAULT_STD
  /\ stat_approx IMAGENET_DEFAULT_MEAN (485 # 1000) (456 # 1000) (406 # 1000)
  /\ stat_approx IMAGENET_DEFAULT_STD (229 # 1000) (224 # 1000) (225 # 1000).
Proof.
  intros self. split; [reflexivity |]. split; [reflexivity |]. split; [| split].
  - exists (py_literal 5 1). split; [vm_compute; reflexivity |].
    split; reflexivity.
  - intros m s. split; reflexivity.
  - split; [vm_compute; discriminate |]. split; [vm_compute; discriminate |].
    split; vm_compute; repeat split; discriminate.
Qed.

(** C3 as stated fails: the default mean and std are not within a
    hundredth of (0.485, 0.456, 0.406) and (0.229, 0.224, 0.225). *)
Lemma C3_counterexample :
  ~ (stat_approx (image_mean (__init__ None None None None None))
       (485 # 1000) (456 # 1000) (406 # 1000)
     /\ stat_approx (image_std (__init__ None None None None None))
          (229 # 1000) (224 # 1000) (225 # 1000)).
Proof.
  intros [[H _] _]. vm_compute in H. apply H. reflexivity.
Qed.

(* ================================================================== *)
(** ** Rescale and standardize *)


Lemma Forall2_with_left {A B : Type} (P : A -> Prop) (R Q : A -> B -> Prop) :
  (forall x y, P x -> R x y -> Q x y) ->
  forall xs ys, Forall P xs -> Forall2 R xs ys -> Forall2 Q xs ys.
Proof.
  intros HQ xs ys HP HR. induction HR as [| x y xs ys Rxy _ IH].
  - constructor.
  - inversion HP; subst. constructor; auto.
Qed.



(** The rescaled sample: widened to binary64, multiplied there by the
    factor, rounded back to binary32. *)
Lemma rescale_image_item (self : SuryaEncoderImageProcessor) (p : ndarray)
  (idx : list nat) (x : spec_float) :
  item p idx = Flt x ->
  item (rescale_image self p) idx = Flt (rescale_via_f64 (rescale_factor self) x).
Proof.
  intros Hx. unfold rescale_image, astype_float32, mul_scalar_f64, astype_float64.
  cbn [item]. rewrite Hx. reflexivity.
Qed.


(* ================================================================== *)
(** ** The theorems at concrete inputs *)

Lemma valid_wide_tall : Forall valid_image [wide_1x2; tall_2x1].
Proof.
  repeat apply Forall_cons; try apply Forall_nil; cbv; repeat split; lia.
Defined.

Lemma valid_tall : Forall valid_image [tall_2x1].
Proof.
  repeat apply Forall_cons; try apply Forall_nil; cbv; repeat split; lia.
Defined.

(** A landscape and a portrait image under a square target, alignment off:
    two outputs of shape (3, 2, 2), float32. *)
Lemma C1_witness :
  exists outs,
    process_inner nearest white (default_processor square_2x2 false) [wide_1x2; tall_2x1]
      = Ok outs
    /\ length outs = 2%nat /\ Forall (processed square_2x2) outs.
Proof.
  refine (proj2 (C1_shape_invariant nearest white (default_processor square_2x2 false)
                   square_2x2 [wide_1x2; tall_2x1] eq_refl valid_wide_tall)
                _ _ _ _ _ _ _ _ _ _ _).
  - discriminate.
  - reflexivity.
  - reflexivity.
  - reflexivity.
  - reflexivity.
  - left. reflexivity.
  - reflexivity.
  - cbv. split; discriminate.
  - exact I.
  - repeat constructor.
  - repeat constructor.
Defined.

(** A portrait image under a portrait target, alignment on. *)
Lemma C10_witness :
  process_inner nearest white (default_processor portrait_1x2 true) [tall_2x1]
  = Raise AssertionError.
Proof.
  refine (proj2 (C10_portrait_target_asserts nearest white
                   (default_processor portrait_1x2 true) portrait_1x2 [tall_2x1]
                   eq_refl eq_refl valid_tall) _ _).
  - reflexivity.
  - apply Exists_cons_hd. unfold is_portrait, tall_2x1, image_of. simpl. lia.
Defined.

(** The landscape image under a portrait target is rotated; under a
    landscape target it is returned as it is. *)
Lemma C5_witness :
  align_long_axis wide_1x2 (Some portrait_1x2) = np_rot90 wide_1x2 3
  /\ align_long_axis wide_1x2 (Some landscape_2x1) = Ok wide_1x2.
Proof.
  split.
  - refine (proj1 (proj1 (C5_aligner_condition wide_1x2 1 2 [3%nat] portrait_1x2 eq_refl)
                     _)).
    unfold aspect_mismatch, portrait_1x2, landscape_2x1. simpl. lia.
  - refine (proj2 (proj1 (proj2 (C5_aligner_condition wide_1x2 1 2 [3%nat] landscape_2x1
                                   eq_refl))) _).
    unfold aspect_mismatch, portrait_1x2, landscape_2x1. simpl. lia.
Defined.

Lemma C4_witness : rotates_clockwise wide_1x2 portrait_1x2.
Proof.
  refine (proj1 (C4_rotation_is_clockwise wide_1x2 1 2 [3%nat] portrait_1x2 eq_refl _)).
  unfold aspect_mismatch, portrait_1x2. simpl. lia.
Defined.

(** A 2 x 3 image on a 5 x 6 canvas: both deltas are 3, one pixel of
    padding goes to the top and left, two to the bottom and right. *)
Lemma C6_witness :
  exists pad_top pad_bottom pad_left pad_right,
    pad_image chw_1x2x3 (Some canvas_5x6) FIRST white
    = tf_pad chw_1x2x3 ((pad_top, pad_bottom), (pad_left, pad_right)) white FIRST
    /\ pad_left = 1 /\ pad_right = 2 /\ pad_top = 1 /\ pad_bottom = 2.
Proof.
  destruct (C6_padding_split chw_1x2x3 canvas_5x6 FIRST white 2 3 eq_refl)
    as [t [b [l [r [_ [E [Hl [Hr [Ht [Hb _]]]]]]]]]].
  - unfold canvas_5x6. simpl. lia.
  - unfold canvas_5x6. simpl. lia.
  - exists t, b, l, r. split; [exact E |].
    subst t l. simpl in Hr, Hb. repeat split; try reflexivity; assumption.
Defined.

(** The same image: a canvas one row high is refused, the 5 x 6 canvas is
    filled. *)
Lemma C8_witness :
  pad_image chw_1x2x3 (Some canvas_1x6) FIRST white = Raise AssertionError
  /\ exists out, pad_image chw_1x2x3 (Some canvas_5x6) FIRST white = Ok out
                 /\ get_image_size out FIRST = Ok (5%nat, 6%nat).
Proof.
  split.
  - refine (proj1 (C8_padder_precondition chw_1x2x3 canvas_1x6 FIRST white 2 3 eq_refl) _).
    right. unfold canvas_1x6. simpl. lia.
  - destruct (proj2 (C8_padder_precondition chw_1x2x3 canvas_5x6 FIRST white 2 3 eq_refl))
      as [out [E [G _]]].
    + unfold canvas_5x6. simpl. lia.
    + unfold canvas_5x6. simpl. lia.
    + reflexivity.
    + cbv. split; discriminate.
    + exists out. split; [exact E | exact G].
Defined.

Lemma valid_rgb : Forall valid_image [rgb_1x1].
Proof.
  repeat apply Forall_cons; try apply Forall_nil; cbv; repeat split; lia.
Defined.


(** The resize stage of the default processor on the landscape image. *)
Lemma C2_witness :
  exists resized,
    resize_images nearest (default_processor square_2x2 false) [wide_1x2] = Ok resized
    /\ Forall (fun r => shape r = [3; 2; 2]%nat) resized
    /\ length resized = 1%nat.
Proof.
  refine (proj2 (proj2 (proj2 (proj2
            (C2_resize_flag square_2x2 (Some false) None None None))))
            nearest [wide_1x2] _ _ _ _).
  - discriminate.
  - repeat apply Forall_cons; try apply Forall_nil; cbv; repeat split; lia.
  - reflexivity.
  - reflexivity.
Defined.

(* ================================================================== *)
(** ** Further properties of the processor *)

(** *** Comprehensions that succeed *)

Lemma mapM_Forall2 {A B : Type} (f : A -> result B) (xs : list A) (ys : list B) :
  mapM f xs = Ok ys <-> Forall2 (fun x y => f x = Ok y) xs ys.
Proof.
  split; [apply mapM_pointwise |].
  induction 1 as [| x y xs ys Hxy _ IH]; simpl.
  - reflexivity.
  - rewrite Hxy, IH. reflexivity.
Qed.

Lemma mapM_map {A B C : Type} (g : A -> B) (f : B -> result C) (xs : list A) :
  mapM f (map g xs) = mapM (fun x => f (g x)) xs.
Proof.
  induction xs as [| x xs IH]; simpl; [reflexivity |]. rewrite IH. reflexivity.
Qed.

Lemma mapM_Ok_id {A : Type} (xs : list A) : mapM (fun x => Ok x) xs = Ok xs.
Proof.
  induction xs as [| x xs IH]; simpl; [reflexivity |]. rewrite IH. reflexivity.
Qed.

(** Two stages succeed together exactly when the comprehension of their
    composition does, with the same result. *)
Lemma mapM_fuse {A B C : Type} (f : A -> result B) (g : B -> result C)
  (xs : list A) (zs : list C) :
  (ys <- mapM f xs ;; mapM g ys) = Ok zs
  <-> mapM (fun x => y <- f x ;; g y) xs = Ok zs.
Proof.
  revert zs. induction xs as [| x xs IH]; intros zs; simpl.
  - reflexivity.
  - destruct (f x) as [y | e]; simpl; [| split; discriminate].
    destruct (mapM f xs) as [ys | e] eqn:Ef; simpl.
    + destruct (g y) as [z | e]; simpl; [| split; discriminate].
      simpl in IH.
      destruct (mapM g ys) as [zs1 | e1];
        destruct (mapM (fun x0 => y0 <- f x0 ;; g y0) xs) as [zs2 | e2]; simpl;
        try (split; discriminate); try reflexivity.
      * assert (zs1 = zs2)
          by (assert (H : Ok zs1 = Ok zs1) by reflexivity;
              apply (IH zs1) in H; congruence).
        subst. reflexivity.
      * exfalso. assert (H : Ok zs1 = Ok zs1) by reflexivity.
        apply (IH zs1) in H. discriminate.
      * exfalso. assert (H : @Ok (list C) zs2 = Ok zs2) by reflexivity.
        apply (IH zs2) in H. discriminate.
    + simpl in IH. split; [discriminate |]. intros H.
      destruct (g y) as [z | e1]; simpl in H; [| discriminate].
      destruct (mapM (fun x0 => y0 <- f x0 ;; g y0) xs) as [zs2 | e2] eqn:E2;
        simpl in H; [| discriminate].
      exfalso. assert (H2 : @Ok (list C) zs2 = Ok zs2) by reflexivity.
      apply (IH zs2) in H2. discriminate.
Qed.

(** A comprehension followed by an assertion loop over its results
    succeeds exactly when each element passes both. *)
Lemma mapM_then_check {A B : Type} (f : A -> result B) (c : B -> result unit)
  (xs : list A) (zs : list B) :
  (ys <- mapM f xs ;; forM_ c ys ;;; Ok ys) = Ok zs
  <-> mapM (fun x => y <- f x ;; c y ;;; Ok y) xs = Ok zs.
Proof.
  revert zs. induction xs as [| x xs IH]; intros zs; simpl.
  - reflexivity.
  - destruct (f x) as [y | e]; simpl; [| split; discriminate].
    destruct (mapM f xs) as [ys | e]; simpl in *.
    + destruct (c y) as [[] | e]; simpl; [| split; discriminate].
      destruct (forM_ c ys) as [[] | e1]; simpl in *;
        destruct (mapM (fun x0 => y0 <- f x0 ;; c y0 ;;; Ok y0) xs) as [zs2 | e2];
        simpl; try (split; discriminate).
      * assert (ys = zs2)
          by (assert (H : Ok ys = Ok ys) by reflexivity;
              apply (IH ys) in H; congruence).
        subst. reflexivity.
      * exfalso. assert (H : Ok ys = Ok ys) by reflexivity.
        apply (IH ys) in H. discriminate.
      * exfalso. assert (H : @Ok (list B) zs2 = Ok zs2) by reflexivity.
        apply (IH zs2) in H. discriminate.
    + split; [discriminate |]. intros H.
      destruct (c y) as [[] | e1]; simpl in H; [| discriminate].
      destruct (mapM (fun x0 => y0 <- f x0 ;; c y0 ;;; Ok y0) xs) as [zs2 | e2];
        simpl in H; [| discriminate].
      exfalso. assert (H2 : @Ok (list B) zs2 = Ok zs2) by reflexivity.
      apply (IH zs2) in H2. discriminate.
Qed.

Lemma bind_assoc {A B C : Type} (m : result A) (f : A -> result B) (g : B -> result C) :
  bind (bind m f) g = bind m (fun x => bind (f x) g).
Proof.
  destruct m; reflexivity.
Qed.

Lemma mapM_ext_all {A B : Type} (f g : A -> result B) (xs : list A) :
  (forall x, f x = g x) -> mapM f xs = mapM g xs.
Proof.
  intros Hfg. induction xs as [| x xs IH]; simpl; [reflexivity |].
  rewrite Hfg, IH. reflexivity.
Qed.

Lemma mapM_length {A B : Type} (f : A -> result B) (xs : list A) (ys : list B) :
  mapM f xs = Ok ys -> length ys = length xs.
Proof.
  intros H. apply mapM_pointwise in H.
  induction H; simpl; congruence.
Qed.

Lemma Forall2_iff_on {A B : Type} (R R' : A -> B -> Prop) (P : A -> Prop) :
  (forall x y, P x -> (R x y <-> R' x y)) ->
  forall xs ys, Forall P xs -> (Forall2 R xs ys <-> Forall2 R' xs ys).
Proof.
  intros HR xs ys HP. split; intros H; induction H as [| x y xs ys Hxy _ IH];
    try constructor; inversion HP; subst; try (apply (HR x y); assumption); auto.
Qed.

(** *** Every image is processed on its own *)

Section Independence.

Variable cv2_interpolate : Z -> ndarray -> nat -> nat -> list nat -> sample.
Variable pad_value : pynum.

Lemma numpy_resize_None (img : ndarray) (flag : option Z) :
  numpy_resize cv2_interpolate img None flag = Raise TypeError.
Proof.
  reflexivity.
Qed.

Lemma align_one_valid (self : SuryaEncoderImageProcessor) (img a : ndarray) :
  valid_image img -> align_one self img = Ok a -> valid_image a.
Proof.
  intros Hv H. unfold align_one in H. destruct (do_align_long_axis self).
  - bind_inv H. bind_inv H. inversion H; subst.
    destruct (max_size self) as [sz |] eqn:Hsz.
    + destruct (align_long_axis_valid img sz Hv) as [y [E Hy]]. congruence.
    + destruct (valid_image_shape img Hv) as [Hh [Ww [Hs _]]].
      unfold align_long_axis in Ha. rewrite Hs in Ha. discriminate Ha.
  - inversion H; subst. exact Hv.
Qed.

(** The alignment stage succeeds exactly when each image aligns and passes
    the assertion. *)
Lemma align_images_fused (self : SuryaEncoderImageProcessor) (images al : list ndarray) :
  align_images self images = Ok al <-> mapM (align_one self) images = Ok al.
Proof.
  unfold align_images, align_one. destruct (do_align_long_axis self).
  - apply mapM_then_check.
  - rewrite mapM_Ok_id. reflexivity.
Qed.

(** On valid, aligned images the resize stage succeeds exactly when each
    resize does: its assertion on the first result then holds. *)
Lemma resize_images_fused (self : SuryaEncoderImageProcessor) (al rs : list ndarray) :
  al <> [] -> Forall valid_image al ->
  (resize_images cv2_interpolate self al = Ok rs
   <-> mapM (fun img => numpy_resize cv2_interpolate img (max_size self)
                          (Some (resample self))) al = Ok rs).
Proof.
  intros Hne Hv. unfold resize_images. split; intros H.
  - bind_inv H. bind_inv H. bind_inv H. bind_inv H. inversion H; subst. exact Ha.
  - rewrite H. cbn [bind].
    destruct al as [| a0 al']; [congruence |].
    destruct (max_size self) as [sz |] eqn:Hsz.
    + simpl in H. bind_inv H. bind_inv H. inversion H; subst.
      inversion Hv as [| ? ? Hv0 _]; subst.
      destruct (numpy_resize_valid_inv cv2_interpolate a0 a sz _ Hv0 Ha) as [Hs _].
      unfold getitem. cbn [nth_error bind]. rewrite Hs. reflexivity.
    + simpl in H. discriminate H.
Qed.

Lemma process_inner_fused (self : SuryaEncoderImageProcessor) (images outs : list ndarray) :
  images <> [] -> Forall valid_image images ->
  (process_inner cv2_interpolate pad_value self images = Ok outs
   <-> mapM (process_one cv2_interpolate pad_value self) images = Ok outs).
Proof.
  intros Hne Hv.
  destruct (fits_float (rescale_factor self)) eqn:Ef.
  - set (f2 := fun img => numpy_resize cv2_interpolate img (max_size self)
                            (Some (resample self))).
    set (f3 := fun r => pad_image (astype_float32 r) (max_size self) FIRST pad_value).
    set (f4 := fun p => normalize (rescale_image self p) (image_mean self) (image_std self)
                          FIRST).
    assert (Eone : mapM (process_one cv2_interpolate pad_value self) images
                   = mapM (fun x => p <- (r <- (a <- align_one self x ;; f2 a) ;; f3 r) ;; f4 p)
                          images).
    { apply mapM_ext_all. intros x. unfold process_one. rewrite Ef. cbn [bind].
      rewrite !bind_assoc. reflexivity. }
    rewrite Eone. clear Eone.
    rewrite <- mapM_fuse.
    split; intros H.
    + destruct (process_inner_stages _ _ _ _ _ H) as [al [rs [pd [Ha [Hr [Hp Hn]]]]]].
      apply align_images_fused in Ha.
      assert (Val : Forall valid_image al).
      { refine (proj1 (mapM_post _ valid_image valid_image _ _ _ Hv Ha)).
        intros x y Hx Hy. exact (align_one_valid self x y Hx Hy). }
      assert (Nal : al <> [])
        by (apply mapM_length in Ha; destruct al;
            [destruct images; [congruence | discriminate Ha] | discriminate]).
      apply (resize_images_fused self al rs Nal Val) in Hr.
      unfold pad_images in Hp. rewrite mapM_map in Hp.
      unfold normalize_images, rescale_images in Hn. rewrite mapM_map in Hn.
      assert (H3 : mapM (fun x => r <- (a <- align_one self x ;; f2 a) ;; f3 r) images
                   = Ok pd).
      { apply mapM_fuse.
        assert (H2 : mapM (fun x => a <- align_one self x ;; f2 a) images = Ok rs)
          by (apply mapM_fuse; rewrite Ha; exact Hr).
        rewrite H2. exact Hp. }
      rewrite H3. exact Hn.
    + bind_inv H. rename a into pd. rename H into Hn.
      apply mapM_fuse in Ha. bind_inv Ha. rename a into rs. rename Ha into Hp.
      apply mapM_fuse in Ha0. bind_inv Ha0. rename a into al. rename Ha0 into Hr.
      assert (Val : Forall valid_image al).
      { refine (proj1 (mapM_post _ valid_image valid_image _ _ _ Hv Ha)).
        intros x y Hx Hy. exact (align_one_valid self x y Hx Hy). }
      assert (Nal : al <> [])
        by (apply mapM_length in Ha; destruct al;
            [destruct images; [congruence | discriminate Ha] | discriminate]).
      rewrite (process_inner_valid_eq _ _ self images Hne Hv).
      rewrite (proj2 (align_images_fused self images al) Ha). cbn [bind].
      rewrite (proj2 (resize_images_fused self al rs Nal Val) Hr). cbn [bind].
      unfold pad_images. rewrite mapM_map. fold f3. rewrite Hp. cbn [bind].
      rewrite (rescale_check_fits self pd Ef). cbn [bind].
      unfold normalize_images, rescale_images. rewrite mapM_map. fold f4. rewrite Hn.
      reflexivity.
  - split; intros H; exfalso.
    + rewrite (process_inner_valid_eq _ _ self images Hne Hv) in H.
      apply bind_Ok_inv in H. destruct H as [al [Hal H]].
      apply bind_Ok_inv in H. destruct H as [rs [Hrs H]].
      apply bind_Ok_inv in H. destruct H as [pd [Hpd H]].
      apply bind_Ok_inv in H. destruct H as [u [Hu H]].
      apply align_images_fused, mapM_length in Hal.
      unfold resize_images in Hrs.
      apply bind_Ok_inv in Hrs. destruct Hrs as [rs' [Hrs' Hrs]].
      apply mapM_length in Hrs'.
      apply bind_Ok_inv in Hrs. destruct Hrs as [r0 [_ Hrs]].
      apply bind_Ok_inv in Hrs. destruct Hrs as [c0 [_ Hrs]].
      apply bind_Ok_inv in Hrs. destruct Hrs as [u0 [_ Hrs]].
      inversion Hrs; subst rs'.
      unfold pad_images in Hpd. apply mapM_length in Hpd. rewrite length_map in Hpd.
      assert (Npd : pd <> [])
        by (destruct pd; [destruct images; [congruence | simpl in *; congruence]
                         | discriminate]).
      pose proof (rescale_check_inv self pd u Npd Hu). congruence.
    + destruct images as [| x xs]; [congruence |].
      simpl in H. unfold process_one in H. rewrite Ef in H.
      destruct (align_one self x); simpl in H; [| discriminate].
      destruct (numpy_resize cv2_interpolate _ _ _); simpl in H; [| discriminate].
      destruct (pad_image _ _ _ _); simpl in H; discriminate.
Qed.

End Independence.

(** X1. For a non-empty batch of valid images, [process_inner] returns
    [outs] exactly when each image, processed alone as a batch of one,
    returns the output at the same position: outputs are in input order and
    none depends on another image of the batch. *)
Theorem X1_batch_is_pointwise
  (cv2_interpolate : Z -> ndarray -> nat -> nat -> list nat -> sample)
  (pad_value : pynum) (self : SuryaEncoderImageProcessor)
  (images outs : list ndarray) :
  images <> [] -> Forall valid_image images ->
  (process_inner cv2_interpolate pad_value self images = Ok outs
   <-> Forall2 (fun img out =>
                  process_inner cv2_interpolate pad_value self [img] = Ok [out])
               images outs).
Proof.
  intros Hne Hv.
  rewrite (process_inner_fused cv2_interpolate pad_value self images outs Hne Hv).
  rewrite mapM_Forall2.
  apply (Forall2_iff_on _ _ valid_image); [| exact Hv].
  intros x y Hx.
  rewrite (process_inner_fused cv2_interpolate pad_value self [x] [y]);
    [| discriminate | constructor; [exact Hx | constructor]].
  simpl. destruct (process_one cv2_interpolate pad_value self x) as [o | e]; simpl.
  - split; intros H; inversion H; reflexivity.
  - split; discriminate.
Qed.

Lemma X1_witness :
  Forall2 (fun img out =>
             process_inner nearest white (default_processor square_2x2 false) [img]
             = Ok [out])
          [wide_1x2; tall_2x1]
          (match process_inner nearest white (default_processor square_2x2 false)
                   [wide_1x2; tall_2x1] with
           | Ok outs => outs
           | Raise _ => []
           end).
Proof.
  refine (proj1 (X1_batch_is_pointwise nearest white (default_processor square_2x2 false)
                   [wide_1x2; tall_2x1] _ _ valid_wide_tall) _).
  - discriminate.
  - reflexivity.
Defined.

(** *** Which exception, and when *)

(** X2. The channel check of [process_inner] looks at the first image
    only and comes before everything else: an empty batch raises
    [IndexError], a first image with fewer than three axes raises
    [IndexError], and a first image whose third extent is not 3 raises
    [AssertionError], whatever the configuration and the other images. *)
Theorem X2_first_image_gate
  (cv2_interpolate : Z -> ndarray -> nat -> nat -> list nat -> sample)
  (pad_value : pynum) (self : SuryaEncoderImageProcessor) :
  process_inner cv2_interpolate pad_value self [] = Raise IndexError
  /\ (forall img rest, (ndim img < 3)%nat ->
        process_inner cv2_interpolate pad_value self (img :: rest) = Raise IndexError)
  /\ (forall img rest H W C more, shape img = H :: W :: C :: more -> C <> 3%nat ->
        process_inner cv2_interpolate pad_value self (img :: rest) = Raise AssertionError).
Proof.
  split; [reflexivity |]. split.
  - intros img rest Hn. unfold process_inner, getitem, ndim in *. cbn [nth_error bind].
    destruct (shape img) as [| a [| b [| c more]]]; simpl in Hn; try reflexivity; lia.
  - intros img rest H W C more Hs HC. unfold process_inner, getitem. cbn [nth_error bind].
    rewrite Hs. cbn [nth_error bind].
    replace (C =? 3)%nat with false by (symmetry; apply Nat.eqb_neq; exact HC).
    reflexivity.
Qed.

(** X3. A processor whose [max_size] is [None], which is what [__init__]
    leaves when the keyword is not given, raises [TypeError] on every batch
    that passes the first-image check, with or without alignment. *)
Theorem X3_missing_max_size
  (cv2_interpolate : Z -> ndarray -> nat -> nat -> list nat -> sample)
  (pad_value : pynum) (self : SuryaEncoderImageProcessor)
  (img : ndarray) (rest : list ndarray) (H W : nat) (more : list nat) :
  max_size self = None -> shape img = H :: W :: 3%nat :: more ->
  process_inner cv2_interpolate pad_value self (img :: rest) = Raise TypeError.
Proof.
  intros Hm Hs. unfold process_inner, getitem. cbn [nth_error bind].
  rewrite Hs. cbn [nth_error bind Nat.eqb assert].
  unfold align_images. destruct (do_align_long_axis self).
  - rewrite Hm. cbn [mapM]. unfold align_long_axis at 1. rewrite Hs. reflexivity.
  - cbn [bind]. unfold resize_images. rewrite Hm. reflexivity.
Qed.

Lemma X3_witness :
  process_inner nearest white (__init__ None None None None None) [rgb_1x1]
  = Raise TypeError.
Proof.
  exact (X3_missing_max_size nearest white (__init__ None None None None None)
           rgb_1x1 [] 1 1 [] eq_refl eq_refl).
Defined.

Section ErrorPrecedence.

Variable cv2_interpolate : Z -> ndarray -> nat -> nat -> list nat -> sample.
Variable pad_value : pynum.

Lemma resize_images_bad_size (self : SuryaEncoderImageProcessor) (sz : Size)
  (al : list ndarray) :
  max_size self = Some sz -> al <> [] -> Forall valid_image al ->
  width sz <= 0 \/ height sz <= 0 ->
  resize_images cv2_interpolate self al = Raise cv2_error.
Proof.
  intros Hsz Hne Hv Hbad. destruct al as [| a0 al']; [congruence |].
  inversion Hv as [| ? ? Hv0 _]; subst.
  destruct (valid_image_shape a0 Hv0) as [H [W [Hs [HH HW]]]].
  unfold resize_images. cbn [mapM]. rewrite Hsz.
  rewrite (numpy_resize_eq cv2_interpolate a0 H W 3 sz _ Hs HH HW) by lia.
  replace ((width sz <=? 0) || (height sz <=? 0)) with true; [reflexivity |].
  symmetry. apply orb_true_iff. rewrite !Z.leb_le. exact Hbad.
Qed.

Lemma per_channel_misfit (s : stat) (n : nat) :
  ~ stat_fits n s -> per_channel s n = Raise ValueError.
Proof.
  destruct s as [v | l]; simpl; intros Hn; [tauto |].
  replace (length l =? n)%nat with false; [reflexivity |].
  symmetry. apply Nat.eqb_neq. exact Hn.
Qed.

Lemma normalize_images_misfit (self : SuryaEncoderImageProcessor) (sz : Size)
  (qs : list ndarray) :
  qs <> [] -> Forall (processed sz) qs ->
  ~ (stat_fits 3 (image_mean self) /\ stat_fits 3 (image_std self)) ->
  normalize_images self qs = Raise ValueError.
Proof.
  intros Hne Hv Hbad. destruct qs as [| q qs']; [congruence |].
  inversion Hv as [| ? ? [Hs Hd] _]; subst.
  unfold normalize_images. cbn [mapM].
  rewrite (normalize_first_eq q _ _ _ _ _ Hs ltac:(rewrite Hd; reflexivity)).
  destruct (image_mean self) as [v | l] eqn:Em.
  - cbn [per_channel bind].
    rewrite per_channel_misfit; [reflexivity |].
    intros Hf. apply Hbad. split; [exact I | exact Hf].
  - simpl per_channel at 1.
    destruct (length l =? 3)%nat eqn:El.
    + cbn [bind]. rewrite per_channel_misfit; [reflexivity |].
      intros Hf. apply Hbad. split; [apply Nat.eqb_eq, El | exact Hf].
    + reflexivity.
Qed.

End ErrorPrecedence.

(** X4. For a non-empty batch of valid images that gets past the
    alignment (flag off, or landscape target), a target size with a
    non-positive width or height makes [process_inner] raise the OpenCV
    error; with a positive size, an interpolation flag OpenCV knows and
    configured numbers NumPy converts to floats (pad value, rescale factor,
    mean, std), a per-channel mean or std whose length is not 3 makes it
    raise [ValueError].  So the size error takes precedence over the
    statistics error. *)
Theorem X4_error_precedence
  (cv2_interpolate : Z -> ndarray -> nat -> nat -> list nat -> sample)
  (pad_value : pynum) (self : SuryaEncoderImageProcessor) (sz : Size)
  (images : list ndarray) :
  max_size self = Some sz -> images <> [] -> Forall valid_image images ->
  do_align_long_axis self = false \/ height sz < width sz ->
  (width sz <= 0 \/ height sz <= 0 ->
   process_inner cv2_interpolate pad_value self images = Raise cv2_error)
  /\ (0 < width sz -> 0 < height sz ->
      cv2.accepts (resample self) = true ->
      pynum_in_range pad_value -> pynum_in_range (rescale_factor self) ->
      stat_in_range (image_mean self) -> stat_in_range (image_std self) ->
      ~ (stat_fits 3 (image_mean self) /\ stat_fits 3 (image_std self)) ->
      process_inner cv2_interpolate pad_value self images = Raise ValueError).
Proof.
  intros Hsz Hne Hv Hcase.
  rewrite (process_inner_valid_eq _ _ self images Hne Hv).
  destruct (align_images_total self sz images Hsz Hv Hcase) as [al [Ea [Va La]]].
  assert (Nal : al <> [])
    by (destruct al; [destruct images; [congruence | discriminate La] | discriminate]).
  rewrite Ea. cbn [bind]. split.
  - intros Hbad.
    rewrite (resize_images_bad_size cv2_interpolate self sz al Hsz Nal Va Hbad).
    reflexivity.
  - intros Hw Hh Hflag _ Hfac _ _ Hbad.
    destruct (resize_images_total cv2_interpolate self sz al Hsz Va Nal Hw Hh Hflag)
      as [rs [Er [Vr Lr]]].
    destruct (pad_images_total pad_value self sz rs Hsz Hw Hh Vr) as [pd [Ep [Vp Lp]]].
    rewrite Er. cbn [bind]. rewrite Ep. cbn [bind].
    rewrite (rescale_check_fits self pd (pynum_in_range_fits _ Hfac)). cbn [bind].
    rewrite (normalize_images_misfit self sz (rescale_images self pd)); [reflexivity | |
      | exact Hbad].
    + unfold rescale_images. destruct pd; [| discriminate].
      destruct rs; [destruct al; [congruence | discriminate Lr] | discriminate Lp].
    + refine (Forall_map_post _ _ _ _ _ Vp). intros x Hx.
      apply rescale_image_processed. exact Hx.
Qed.

Lemma X4_witness :
  process_inner nearest white
    (__init__ (Some {| height := 0; width := 2 |}) None None
       (Some (PerChannel [PyInt 0])) None) [rgb_1x1] = Raise cv2_error
  /\ process_inner nearest white
       (__init__ (Some square_2x2) None None (Some (PerChannel [PyInt 0])) None)
       [rgb_1x1] = Raise ValueError.
Proof.
  split.
  - refine (proj1 (X4_error_precedence nearest white
                     (__init__ (Some {| height := 0; width := 2 |}) None None
                        (Some (PerChannel [PyInt 0])) None)
                     {| height := 0; width := 2 |}
                     [rgb_1x1] eq_refl _ valid_rgb _) _).
    + discriminate.
    + left. reflexivity.
    + right. simpl. lia.
  - refine (proj2 (X4_error_precedence nearest white
                     (__init__ (Some square_2x2) None None (Some (PerChannel [PyInt 0])) None)
                     square_2x2
                     [rgb_1x1] eq_refl _ valid_rgb _) _ _ _ _ _ _ _ _).
    + discriminate.
    + left. reflexivity.
    + reflexivity.
    + reflexivity.
    + reflexivity.
    + cbv. split; discriminate.
    + exact I.
    + simpl. repeat constructor; discriminate.
    + repeat constructor.
    + simpl. intros [H _]. discriminate H.
Defined.

Lemma X2_witness :
  process_inner nearest white (default_processor square_2x2 false)
    [image_of [[[10; 11; 12; 13; 14]]]; rgb_1x1] = Raise AssertionError.
Proof.
  refine (proj2 (proj2 (X2_first_image_gate nearest white
                          (default_processor square_2x2 false)))
            (image_of [[[10; 11; 12; 13; 14]]]) [rgb_1x1] 1%nat 1%nat 5%nat [] eq_refl _).
  discriminate.
Defined.

(** *** The aligner's result *)

(** The aligner's result on an image of extents [H], [W]: either the
    image, when the test fails, or the turned image with the extents
    exchanged. *)
Lemma align_long_axis_result (image y : ndarray) (H W : nat) (rest : list nat) (sz : Size) :
  shape image = H :: W :: rest ->
  align_long_axis image (Some sz) = Ok y ->
  (aspect_mismatch sz H W /\ y = flip_axis1 (swap_axes01 image)
   /\ shape y = W :: H :: rest)
  \/ (~ aspect_mismatch sz H W /\ y = image).
Proof.
  intros Hs Hy. rewrite (align_long_axis_eq image H W rest sz Hs) in Hy.
  destruct (aspect_mismatchb sz H W) eqn:E; inversion Hy; subst.
  - left. split; [apply aspect_mismatchb_spec, E |]. split; [reflexivity |].
    exact (rot90_3_shape image H W rest Hs).
  - right. split; [| reflexivity].
    intros M. apply aspect_mismatchb_spec in M. congruence.
Qed.

(** X5. After [align_long_axis] the image never contradicts the target's
    orientation: under a portrait target the result is at least as tall as
    wide, under a landscape target at least as wide as tall, and under a
    square target it is the image itself.  The two extents are the
    image's, possibly exchanged; the other axes are untouched. *)
Theorem X5_aligner_orientation (image y : ndarray) (H W : nat) (rest : list nat)
  (sz : Size) :
  shape image = H :: W :: rest ->
  align_long_axis image (Some sz) = Ok y ->
  exists H' W',
    shape y = H' :: W' :: rest
    /\ ((H' = H /\ W' = W) \/ (H' = W /\ W' = H))
    /\ (width sz < height sz -> (W' <= H')%nat)
    /\ (height sz < width sz -> (H' <= W')%nat)
    /\ (width sz = height sz -> y = image).
Proof.
  intros Hs Hy.
  destruct (align_long_axis_result image y H W rest sz Hs Hy)
    as [[M [Ey Hsy]] | [N Ey]].
  - exists W, H. unfold aspect_mismatch in M. rewrite Hsy.
    split; [reflexivity |]. split; [right; auto |]. repeat split; intros; lia.
  - exists H, W. subst y. unfold aspect_mismatch in N.
    split; [exact Hs |]. split; [left; auto |]. repeat split; intros; lia.
Qed.

Lemma X5_witness :
  exists H' W', shape (flip_axis1 (swap_axes01 wide_1x2)) = [H'; W'; 3%nat]
                /\ (W' <= H')%nat.
Proof.
  destruct (X5_aligner_orientation wide_1x2 (flip_axis1 (swap_axes01 wide_1x2))
              1 2 [3%nat] portrait_1x2 eq_refl eq_refl)
    as [H' [W' [Hs [_ [Hp _]]]]].
  exists H', W'. split; [exact Hs |]. apply Hp. reflexivity.
Defined.

(** X6. [align_long_axis] is idempotent: applied to its own result with
    the same target it returns that result unchanged, so an image is never
    turned twice. *)
Theorem X6_aligner_idempotent (image y : ndarray) (sz : Size) :
  align_long_axis image (Some sz) = Ok y ->
  align_long_axis y (Some sz) = Ok y.
Proof.
  intros Hy.
  destruct (shape image) as [| H [| W rest]] eqn:Hs;
    try (unfold align_long_axis in Hy; rewrite Hs in Hy; discriminate Hy).
  destruct (align_long_axis_result image y H W rest sz Hs Hy)
    as [[M [Ey Hsy]] | [N Ey]].
  - rewrite (align_long_axis_eq y W H rest sz Hsy).
    replace (aspect_mismatchb sz W H) with false; [reflexivity |].
    symmetry. destruct (aspect_mismatchb sz W H) eqn:E; [| reflexivity].
    apply aspect_mismatchb_spec in E. unfold aspect_mismatch in *. lia.
  - subst y. exact Hy.
Qed.

Lemma X6_witness :
  align_long_axis (flip_axis1 (swap_axes01 wide_1x2)) (Some portrait_1x2)
  = Ok (flip_axis1 (swap_axes01 wide_1x2)).
Proof.
  exact (X6_aligner_idempotent wide_1x2 (flip_axis1 (swap_axes01 wide_1x2))
           portrait_1x2 eq_refl).
Defined.

(** Under a portrait target an image that is not square is taller than
    wide after the aligner, whether it was turned or not. *)
Lemma align_long_axis_portrait_target (image y : ndarray) (sz : Size) :
  width sz < height sz -> not_square image ->
  align_long_axis image (Some sz) = Ok y -> is_wide y = false.
Proof.
  unfold not_square. intros Hp Hn Hy.
  destruct (shape image) as [| H [| W rest]] eqn:Hs; try contradiction.
  destruct (align_long_axis_result image y H W rest sz Hs Hy)
    as [[M [Ey Hsy]] | [N Ey]].
  - unfold is_wide. rewrite Hsy. apply Nat.leb_gt. unfold aspect_mismatch in M. lia.
  - subst y. unfold is_wide. rewrite Hs. apply Nat.leb_gt.
    unfold aspect_mismatch in N. lia.
Qed.

(** Under a square target nothing is turned, so a portrait image stays
    taller than wide. *)
Lemma align_long_axis_square_target (image y : ndarray) (sz : Size) :
  width sz = height sz -> is_portrait image ->
  align_long_axis image (Some sz) = Ok y -> is_wide y = false.
Proof.
  unfold is_portrait. intros Hp Hn Hy.
  destruct (shape image) as [| H [| W rest]] eqn:Hs; try contradiction.
  destruct (align_long_axis_result image y H W rest sz Hs Hy)
    as [[M [Ey Hsy]] | [N Ey]].
  - unfold aspect_mismatch in M. lia.
  - subst y. unfold is_wide. rewrite Hs. apply Nat.leb_gt. exact Hn.
Qed.

(** X7. With alignment enabled only a landscape target accepts every
    image.  Under a portrait target any batch of valid images holding an
    image that is not square raises the assertion error (a landscape image
    is turned to portrait and then fails the width >= height assertion);
    under a square target any batch holding a portrait image does. *)
Theorem X7_alignment_rejects
  (cv2_interpolate : Z -> ndarray -> nat -> nat -> list nat -> sample)
  (pad_value : pynum) (self : SuryaEncoderImageProcessor) (sz : Size)
  (images : list ndarray) :
  do_align_long_axis self = true -> max_size self = Some sz ->
  Forall valid_image images ->
  (width sz < height sz -> Exists not_square images ->
   process_inner cv2_interpolate pad_value self images = Raise AssertionError)
  /\ (width sz = height sz -> Exists is_portrait images ->
      process_inner cv2_interpolate pad_value self images = Raise AssertionError).
Proof.
  intros Hflag Hsz Hv.
  destruct (align_images_enabled self sz images Hflag Hsz Hv)
    as [aligned [Hal [Hva [Hlen Heq]]]].
  assert (Hfail : Exists (fun a => is_wide a = false) aligned ->
                  process_inner cv2_interpolate pad_value self images = Raise AssertionError).
  { intros HE.
    assert (Hne : images <> [])
      by (destruct images; [destruct aligned; [inversion HE | discriminate Hlen]
                           | discriminate]).
    rewrite (process_inner_valid_eq _ _ self images Hne Hv), Heq.
    rewrite (forM_assert_fail is_wide aligned HE). reflexivity. }
  split; intros Hp HE; apply Hfail.
  - apply (Forall2_Exists_transfer
             (fun x y => align_long_axis x (Some sz) = Ok y) not_square
             (fun a => is_wide a = false)) with (xs := images).
    + intros x y Hx Hy. exact (align_long_axis_portrait_target x y sz Hp Hx Hy).
    + apply mapM_pointwise. exact Hal.
    + exact HE.
  - apply (Forall2_Exists_transfer
             (fun x y => align_long_axis x (Some sz) = Ok y) is_portrait
             (fun a => is_wide a = false)) with (xs := images).
    + intros x y Hx Hy. exact (align_long_axis_square_target x y sz Hp Hx Hy).
    + apply mapM_pointwise. exact Hal.
    + exact HE.
Qed.

(** A landscape image under a portrait target, alignment on. *)
Lemma X7_witness :
  process_inner nearest white (default_processor portrait_1x2 true) [wide_1x2]
  = Raise AssertionError.
Proof.
  refine (proj1 (X7_alignment_rejects nearest white (default_processor portrait_1x2 true)
                   portrait_1x2 [wide_1x2] eq_refl eq_refl _) _ _).
  - repeat apply Forall_cons; try apply Forall_nil; cbv; repeat split; lia.
  - reflexivity.
  - apply Exists_cons_hd. unfold not_square, wide_1x2, image_of. simpl. lia.
Defined.

(** *** Padding to the size the image already has *)

Lemma in_bounds_3 (a b c : nat) (idx : list nat) :
  in_bounds [a; b; c] idx ->
  exists i j k, idx = [i; j; k] /\ (i < a)%nat /\ (j < b)%nat /\ (k < c)%nat.
Proof.
  destruct idx as [| i [| j [| k [| ? ?]]]]; simpl; try tauto.
  intros [Hi [Hj [Hk _]]]. exists i, j, k. auto.
Qed.

(** With no padding on any side the padded array is the source array. *)
Lemma padded_first_zero (a : ndarray) (C H W : nat) (v : pynum) :
  shape a = [C; H; W] -> same_array (padded_first a 0 0 0 0 v) a.
Proof.
  intros Hs. unfold same_array.
  assert (Hsp : shape (padded_first a 0 0 0 0 v) = [C; H; W])
    by (unfold padded_first; rewrite Hs; cbn [shape pad_shape];
        rewrite !Nat.add_0_r; reflexivity).
  rewrite Hsp, Hs. repeat split.
  intros idx Hb. destruct (in_bounds_3 _ _ _ _ Hb) as [c [i [j [E [Hc [Hi Hj]]]]]].
  subst idx. rewrite (padded_first_item a C H W 0 0 0 0 v c i j Hs Hc).
  replace ((0 <=? i) && (i <? 0 + H) && ((0 <=? j) && (j <? 0 + W)))%nat with true.
  - rewrite !Nat.sub_0_r. reflexivity.
  - symmetry. rewrite !andb_true_iff, !Nat.leb_le, !Nat.ltb_lt. lia.
Qed.

Lemma pad_image_same_size (a : ndarray) (C H W : nat) (sz : Size) (v : pynum) :
  storable (dt a) v = true ->
  shape a = [C; H; W] -> height sz = Z.of_nat H -> width sz = Z.of_nat W ->
  pad_image a (Some sz) FIRST v = Ok (padded_first a 0 0 0 0 v).
Proof.
  intros Hst Hs Hh Hw.
  rewrite (pad_image_first_eq a C H W sz v Hst Hs) by lia.
  rewrite Hh, Hw, !Z.sub_diag. reflexivity.
Qed.

(** X8. Padding is idempotent: an image that [pad_image] has brought to a
    target size is returned unchanged, item for item, when padded to that
    size again, whatever fill value the second call uses among those the
    array holds. *)
Theorem X8_pad_image_idempotent (image out : ndarray) (C H W : nat) (sz : Size)
  (v v' : pynum) :
  shape image = [C; H; W] ->
  fill_fits (dt image) v -> fill_fits (dt image) v' ->
  pad_image image (Some sz) FIRST v = Ok out ->
  exists out', pad_image out (Some sz) FIRST v' = Ok out' /\ same_array out' out.
Proof.
  intros Hs Hfv Hfv' Hp.
  pose proof (fill_fits_storable _ _ Hfv) as Hst.
  pose proof (fill_fits_storable _ _ Hfv') as Hst'.
  assert (Hge : Z.of_nat W <= width sz /\ Z.of_nat H <= height sz).
  { rewrite (pad_image_unfold image sz FIRST v H W (get_image_size_first image C H W Hs))
      in Hp.
    destruct ((width sz - Z.of_nat W >=? 0) && (height sz - Z.of_nat H >=? 0)) eqn:E;
      [| discriminate Hp].
    apply andb_true_iff in E. rewrite !Z.geb_leb, !Z.leb_le in E. lia. }
  destruct Hge as [Hw Hh].
  rewrite (pad_image_first_eq image C H W sz v Hst Hs Hh Hw) in Hp.
  injection Hp as Eo. subst out.
  pose proof (padded_first_shape image C H W sz v Hs Hh Hw) as Hso.
  cbv zeta in Hso.
  match type of Hso with shape ?p = _ => set (pd := p) in * end.
  assert (Hsp : storable (dt pd) v' = true) by exact Hst'.
  eexists. split.
  - apply (pad_image_same_size pd C _ _ sz v' Hsp Hso); lia.
  - exact (padded_first_zero _ C _ _ v' Hso).
Qed.

Lemma X8_witness :
  exists out out',
    pad_image chw_1x2x3 (Some canvas_5x6) FIRST white = Ok out
    /\ pad_image out (Some canvas_5x6) FIRST (PyInt 0) = Ok out'
    /\ same_array out' out.
Proof.
  pose (out := match pad_image chw_1x2x3 (Some canvas_5x6) FIRST white with
               | Ok o => o
               | Raise _ => chw_1x2x3
               end).
  assert (E : pad_image chw_1x2x3 (Some canvas_5x6) FIRST white = Ok out) by reflexivity.
  destruct (X8_pad_image_idempotent chw_1x2x3 out 1 2 3 canvas_5x6 white (PyInt 0)
              eq_refl) as [out' [E' S]].
  - cbv. split; discriminate.
  - cbv. split; discriminate.
  - exact E.
  - exists out, out'. split; [exact E |]. split; [exact E' | exact S].
Defined.

(** *** Padding a channel-last image *)

Lemma tf_pad_last (image : ndarray) (H W C : nat) (t b l r : Z) (v : pynum) :
  storable (dt image) v = true ->
  shape image = [H; W; C] -> 0 <= t -> 0 <= b -> 0 <= l -> 0 <= r ->
  tf_pad image ((t, b), (l, r)) v LAST =
  Ok (padded_last image (Z.to_nat t) (Z.to_nat b) (Z.to_nat l) (Z.to_nat r) v).
Proof.
  intros Hst Hs Ht Hb Hl Hr. unfold tf_pad, np_pad, ndim. rewrite Hs, Hst.
  cbn [length Nat.eqb negb existsb fst snd map].
  replace (t <? 0) with false by (symmetry; apply Z.ltb_ge; lia).
  replace (b <? 0) with false by (symmetry; apply Z.ltb_ge; lia).
  replace (l <? 0) with false by (symmetry; apply Z.ltb_ge; lia).
  replace (r <? 0) with false by (symmetry; apply Z.ltb_ge; lia).
  cbn [Z.ltb Z.compare orb]. unfold padded_last. rewrite Hs. reflexivity.
Qed.

Lemma padded_last_item (image : ndarray) (H W C : nat) (t b l r : nat) (v : pynum)
  (i j c : nat) :
  shape image = [H; W; C] -> (c < C)%nat ->
  item (padded_last image t b l r v) [i; j; c] =
  if ((t <=? i) && (i <? t + H) && ((l <=? j) && (j <? l + W)))%nat
  then item image [(i - t)%nat; (j - l)%nat; c]
  else store (dt image) v.
Proof.
  intros Hs Hc. unfold padded_last. rewrite Hs. cbn [item pad_source].
  destruct ((t <=? i) && (i <? t + H))%nat; [| reflexivity].
  destruct ((l <=? j) && (j <? l + W))%nat; [| reflexivity].
  replace ((0 <=? c) && (c <? 0 + C))%nat with true
    by (symmetry; apply andb_true_iff; split; [reflexivity | apply Nat.ltb_lt; lia]).
  rewrite Nat.sub_0_r. reflexivity.
Qed.

(** X9. [pad_image] on a channel-last image (height x width x channels)
    pads the first two axes and leaves the channel axis alone: when the
    target is at least the image in both extents and the fill value is one
    the array holds, the result has the target
    height and width and the image's channels, the image's items sit in a
    window of the image's size whose offsets are half the deltas (rounded
    down), and every other item is the fill value. *)
Theorem X9_pad_image_channel_last (image : ndarray) (H W C : nat) (sz : Size)
  (v : pynum) :
  shape image = [H; W; C] ->
  Z.of_nat H <= height sz -> Z.of_nat W <= width sz ->
  fill_fits (dt image) v ->
  let top := Z.to_nat ((height sz - Z.of_nat H) / 2) in
  let left := Z.to_nat ((width sz - Z.of_nat W) / 2) in
  exists out,
    pad_image image (Some sz) LAST v = Ok out
    /\ shape out = [Z.to_nat (height sz); Z.to_nat (width sz); C]
    /\ dt out = dt image
    /\ (forall i j c, (i < H)%nat -> (j < W)%nat -> (c < C)%nat ->
          item out [(top + i)%nat; (left + j)%nat; c] = item image [i; j; c])
    /\ (forall i j c, (c < C)%nat ->
          (i < top \/ top + H <= i \/ j < left \/ left + W <= j)%nat ->
          item out [i; j; c] = store (dt image) v).
Proof.
  intros Hs Hh Hw Hfill top left.
  set (dh := height sz - Z.of_nat H) in *. set (dw := width sz - Z.of_nat W) in *.
  pose proof (half_split dh ltac:(subst dh; lia)) as Sh.
  pose proof (half_split dw ltac:(subst dw; lia)) as Sw.
  rewrite (pad_image_unfold image sz LAST v H W (get_image_size_3d image H W C LAST Hs)).
  fold dw dh.
  replace ((dw >=? 0) && (dh >=? 0)) with true
    by (symmetry; apply andb_true_iff; rewrite !Z.geb_leb, !Z.leb_le; subst dh dw; lia).
  unfold pad_amounts.
  rewrite (tf_pad_last image H W C _ _ _ _ v (fill_fits_storable _ _ Hfill) Hs) by lia.
  eexists. split; [reflexivity |]. split; [| split; [reflexivity |]].
  - unfold padded_last. rewrite Hs. cbn [shape pad_shape].
    f_equal; [subst dh; lia |]. f_equal; [subst dw; lia |]. f_equal. lia.
  - split.
    + intros i j c Hi Hj Hc.
      rewrite (padded_last_item image H W C _ _ _ _ v _ _ c Hs Hc).
      match goal with |- (if ?b then _ else _) = _ => replace b with true end.
      * repeat f_equal; lia.
      * symmetry. rewrite !andb_true_iff, !Nat.leb_le, !Nat.ltb_lt. lia.
    + intros i j c Hc Hout.
      rewrite (padded_last_item image H W C _ _ _ _ v _ _ c Hs Hc).
      match goal with |- (if ?b then _ else _) = _ => replace b with false end;
        [reflexivity |].
      symmetry. rewrite !andb_false_iff, !Nat.leb_gt, !Nat.ltb_ge. subst top left. lia.
Qed.

Lemma X9_witness :
  exists out,
    pad_image rgb_1x1 (Some canvas_5x6) LAST white = Ok out
    /\ shape out = [5; 6; 3]%nat
    /\ item out [2; 2; 0]%nat = Int 10
    /\ item out [0; 0; 0]%nat = Int 255.
Proof.
  destruct (X9_pad_image_channel_last rgb_1x1 1 1 3 canvas_5x6 white eq_refl)
    as [out [E [Hs [_ [Hin Hout]]]]].
  - unfold canvas_5x6. simpl. lia.
  - unfold canvas_5x6. simpl. lia.
  - cbv. split; discriminate.
  - exists out. split; [exact E |]. split; [exact Hs |]. split.
    + exact (Hin 0%nat 0%nat 0%nat ltac:(lia) ltac:(lia) ltac:(lia)).
    + refine (Hout 0%nat 0%nat 0%nat ltac:(lia) _). left.
      unfold canvas_5x6. simpl. lia.
Defined.

(** *** From the resized samples to the output *)


Section Pointwise.

Variable cv2_interpolate : Z -> ndarray -> nat -> nat -> list nat -> sample.

(** One image, once the target size is known and the image is valid: the
    padding adds nothing, and what can still fail after the resize is the
    length of the statistics. *)
Lemma process_one_eq (pad_value : pynum) (self : SuryaEncoderImageProcessor)
  (sz : Size) (img : ndarray) :
  max_size self = Some sz -> valid_image img ->
  process_one cv2_interpolate pad_value self img =
  (a <- align_one self img ;;
   r <- numpy_resize cv2_interpolate a (Some sz) (Some (resample self)) ;;
   (if fits_float (rescale_factor self) then Ok tt else Raise OverflowError) ;;;
   ms <- per_channel (image_mean self) 3 ;;
   ss <- per_channel (image_std self) 3 ;;
   Ok (normalized_first
         (rescale_image self (padded_first (astype_float32 r) 0 0 0 0 pad_value)) ms ss)).
Proof.
  intros Hsz Hv. unfold process_one. rewrite Hsz.
  destruct (align_one self img) as [a | e] eqn:Ea; [| reflexivity]. cbn [bind].
  pose proof (align_one_valid self img a Hv Ea) as Hva.
  destruct (numpy_resize cv2_interpolate a (Some sz) (Some (resample self)))
    as [r | e] eqn:Er; [| reflexivity]. cbn [bind].
  destruct (numpy_resize_valid_inv cv2_interpolate a r sz _ Hva Er) as [Hs [Hw Hh]].
  assert (Hsa : shape (astype_float32 r)
                = [3%nat; Z.to_nat (height sz); Z.to_nat (width sz)]) by exact Hs.
  rewrite (pad_image_same_size (astype_float32 r) _ _ _ sz pad_value eq_refl Hsa) by lia.
  cbn [bind].
  destruct (padded_first_zero (astype_float32 r) _ _ _ pad_value Hsa) as [Hsp _].
  rewrite Hsa in Hsp.
  destruct (fits_float (rescale_factor self)); [| reflexivity]. cbn [bind].
  apply (normalize_first_eq
           (rescale_image self (padded_first (astype_float32 r) 0 0 0 0 pad_value))
           _ _ _ _ _ Hsp eq_refl).
Qed.

(** Every sample of the output is [encode_sample] of the sample OpenCV
    computed at that position of the aligned image. *)
Lemma process_one_formula (pad_value : pynum) (self : SuryaEncoderImageProcessor)
  (sz : Size) (img o : ndarray) :
  max_size self = Some sz -> valid_image img ->
  process_one cv2_interpolate pad_value self img = Ok o ->
  exists a ms ss,
    align_one self img = Ok a
    /\ per_channel (image_mean self) 3 = Ok ms
    /\ per_channel (image_std self) 3 = Ok ss
    /\ shape o = [3%nat; Z.to_nat (height sz); Z.to_nat (width sz)]
    /\ dt o = float32
    /\ forall c i j,
         (c < 3)%nat -> (i < Z.to_nat (height sz))%nat -> (j < Z.to_nat (width sz))%nat ->
         item o [c; i; j]
         = encode_sample (rescale_factor self) (nth c ms (PyInt 0)) (nth c ss (PyInt 1))
             (cv2_interpolate (resample self) a
                (Z.to_nat (height sz)) (Z.to_nat (width sz)) [i; j; c]).
Proof.
  intros Hsz Hv H. rewrite (process_one_eq pad_value self sz img Hsz Hv) in H.
  apply bind_Ok_inv in H. destruct H as [a' [Ha H]].
  apply bind_Ok_inv in H. destruct H as [r [Ha0 H]].
  apply bind_Ok_inv in H. destruct H as [u [_ H]].
  apply bind_Ok_inv in H. destruct H as [ms [Hms H]].
  apply bind_Ok_inv in H. destruct H as [ss [Hss H]].
  inversion H; subst o. clear H.
  exists a', ms, ss. repeat (split; [assumption |]).
  pose proof (align_one_valid self img a' Hv Ha) as Hva.
  destruct (valid_image_shape a' Hva) as [Hh [Ww [Hsa [HH HW]]]].
  rewrite (numpy_resize_eq cv2_interpolate a' Hh Ww 3 sz _ Hsa HH HW) in Ha0 by lia.
  cbv zeta in Ha0.
  destruct ((width sz <=? 0) || (height sz <=? 0)); [discriminate Ha0 |].
  destruct (negb (cv2.accepts (resample self))); [discriminate Ha0 |].
  inversion Ha0; subst r. clear Ha0.
  split; [unfold normalized_first, padded_first; cbn [shape pad_shape astype_float32
                                                      rescale_image mul_scalar_f64
                                                      astype_float64];
          rewrite !Nat.add_0_r; reflexivity |].
  split; [reflexivity |].
  intros c i j Hc Hi Hj.
  unfold normalized_first. cbn [item].
  match goal with
  | |- context [padded_first ?q 0 0 0 0 pad_value] => set (q0 := q)
  end.
  assert (Hq : shape q0 = [3%nat; Z.to_nat (height sz); Z.to_nat (width sz)])
    by reflexivity.
  assert (Hp : item (padded_first q0 0 0 0 0 pad_value) [c; i; j]
               = Flt (sample_to_f32
                        (cv2_interpolate (resample self) a'
                           (Z.to_nat (height sz)) (Z.to_nat (width sz)) [i; j; c]))).
  { destruct (padded_first_zero q0 _ _ _ pad_value Hq) as [Hsp [_ Hit]].
    rewrite Hit by (rewrite Hsp, Hq; simpl; lia).
    unfold q0. cbn [astype_float32 item].
    destruct (cv2_interpolate (resample self) a' (Z.to_nat (height sz))
                (Z.to_nat (width sz)) [i; j; c]); reflexivity. }
  rewrite (rescale_image_item self _ _ _ Hp). reflexivity.
Qed.

End Pointwise.





(** *** The default encoding of 8-bit samples *)

Lemma uint8_values_all (f : Z -> bool) :
  forallb f uint8_values = true -> forall n, 0 <= n <= 255 -> f n = true.
Proof.
  intros H n Hn. rewrite forallb_forall in H. apply H.
  unfold uint8_values. apply in_map_iff. exists (Z.to_nat n).
  split; [lia |]. apply in_seq. lia.
Qed.

Lemma default_encode_bounds (n : Z) :
  0 <= n <= 255 ->
  is_number (default_encode n) = true
  /\ (-1 <= SF2Q (default_encode n) <= 1)%Q.
Proof.
  intros Hn.
  pose proof (uint8_values_all
                (fun k => is_number (default_encode k)
                          && (Qle_bool (-1) (SF2Q (default_encode k))
                              && Qle_bool (SF2Q (default_encode k)) 1))
                ltac:(vm_compute; reflexivity) n Hn) as H.
  cbv beta in H. rewrite !andb_true_iff, !Qle_bool_iff in H. tauto.
Qed.

Lemma default_encode_step (n : Z) :
  0 <= n <= 254 -> (SF2Q (default_encode n) < SF2Q (default_encode (n + 1)))%Q.
Proof.
  intros Hn.
  pose proof (uint8_values_all
                (fun k => (254 <? k)
                          || negb (Qle_bool (SF2Q (default_encode (k + 1)))
                                            (SF2Q (default_encode k))))
                ltac:(vm_compute; reflexivity) n ltac:(lia)) as H.
  cbv beta in H. apply orb_true_iff in H. destruct H as [H | H].
  - apply Z.ltb_lt in H. lia.
  - apply negb_true_iff in H. apply Qnot_le_lt. intros Hle.
    apply Qle_bool_iff in Hle. congruence.
Qed.

Lemma default_encode_increasing (n m : Z) :
  0 <= n -> n < m -> m <= 255 ->
  (SF2Q (default_encode n) < SF2Q (default_encode m))%Q.
Proof.
  intros Hn Hnm Hm.
  replace m with (n + 1 + Z.of_nat (Z.to_nat (m - n - 1))) in * by lia.
  generalize dependent (Z.to_nat (m - n - 1)). intros k. induction k as [| k IH].
  - intros _ Hk. rewrite Z.add_0_r. apply default_encode_step. simpl in Hk. lia.
  - intros Hlt Hk.
    apply Qlt_trans with (SF2Q (default_encode (n + 1 + Z.of_nat k))).
    + apply IH; lia.
    + replace (n + 1 + Z.of_nat (S k)) with (n + 1 + Z.of_nat k + 1) by lia.
      apply default_encode_step. lia.
Qed.

(** X12. Under the default rescale factor and statistics an 8-bit sample
    [n] that OpenCV returns becomes the float32 [default_encode n] in the
    output.  These 256 values are numbers between -1 and 1, exactly -1.0
    for 0 and exactly 1.0 for 255, and strictly increasing in [n]: no two
    intensities collapse. *)
Theorem X12_default_encoding
  (cv2_interpolate : Z -> ndarray -> nat -> nat -> list nat -> sample)
  (pad_value : pynum) (sz : Size) (align : option bool)
  (images outs : list ndarray) :
  let self := __init__ (Some sz) align None None None in
  Forall valid_image images ->
  process_inner cv2_interpolate pad_value self images = Ok outs ->
  Forall2 (fun img o =>
     exists a,
       align_one self img = Ok a
       /\ forall c i j n,
            (c < 3)%nat -> (i < Z.to_nat (height sz))%nat ->
            (j < Z.to_nat (width sz))%nat ->
            cv2_interpolate Resampling.BILINEAR a
              (Z.to_nat (height sz)) (Z.to_nat (width sz)) [i; j; c] = Int n ->
            item o [c; i; j] = Flt (default_encode n))
    images outs
  /\ (forall n, 0 <= n <= 255 ->
        is_number (default_encode n) = true
        /\ (-1 <= SF2Q (default_encode n) <= 1)%Q)
  /\ default_encode 0 = S754_finite true 8388608 (-23)
  /\ default_encode 255 = S754_finite false 8388608 (-23)
  /\ (forall n m, 0 <= n -> n < m -> m <= 255 ->
        (SF2Q (default_encode n) < SF2Q (default_encode m))%Q).
Proof.
  intros self Hv H.
  split; [| split; [exact default_encode_bounds |
            split; [vm_compute; reflexivity |
            split; [vm_compute; reflexivity | exact default_encode_increasing]]]].
  assert (Hne : images <> []) by (intros E; subst images; discriminate H).
  apply (process_inner_fused cv2_interpolate pad_value self images outs Hne Hv) in H.
  apply mapM_Forall2 in H.
  refine (Forall2_with_left valid_image _ _ _ images outs Hv H).
  intros img o Hvi Ho.
  destruct (process_one_formula cv2_interpolate pad_value self sz img o eq_refl Hvi Ho)
    as [a [ms [ss [Ea [Em [Es [_ [_ Hio]]]]]]]].
  exists a. split; [exact Ea |].
  intros c i j n Hc Hi Hj Hk.
  rewrite (Hio c i j Hc Hi Hj).
  change (resample self) with Resampling.BILINEAR. rewrite Hk.
  cbn [self __init__ image_mean image_std IMAGENET_STANDARD_MEAN IMAGENET_STANDARD_STD
       per_channel length Nat.eqb] in Em, Es.
  inversion Em; subst ms. inversion Es; subst ss.
  destruct c as [| [| [| c]]]; try lia; reflexivity.
Qed.

Lemma X12_witness :
  Forall2 (fun img o =>
     exists a,
       align_one (__init__ (Some square_2x2) None None None None) img = Ok a
       /\ forall c i j n,
            (c < 3)%nat -> (i < 2)%nat -> (j < 2)%nat ->
            nearest Resampling.BILINEAR a 2 2 [i; j; c] = Int n ->
            item o [c; i; j] = Flt (default_encode n))
    [rgb_1x1]
    (match process_inner nearest white (__init__ (Some square_2x2) None None None None)
             [rgb_1x1] with
     | Ok outs => outs
     | Raise _ => []
     end).
Proof.
  exact (proj1 (X12_default_encoding nearest white square_2x2 None [rgb_1x1] _
                  valid_rgb eq_refl)).
Defined.

(** *** Single-channel images *)

Lemma mapM_app_raise {A B : Type} (f : A -> result B) (pre post : list A) (x : A)
  (ys : list B) (e : exn) :
  mapM f pre = Ok ys -> f x = Raise e -> mapM f (pre ++ x :: post) = Raise e.
Proof.
  revert ys. induction pre as [| p pre IH]; intros ys Hp Hx; simpl.
  - rewrite Hx. reflexivity.
  - simpl in Hp. bind_inv Hp. bind_inv Hp. rewrite Ha. cbn [bind].
    rewrite (IH a0 Ha0 Hx). reflexivity.
Qed.

Section SingleChannel.

Variable cv2_interpolate : Z -> ndarray -> nat -> nat -> list nat -> sample.

Lemma numpy_resize_single_channel (img : ndarray) (sz : Size) (flag : option Z) :
  single_channel img -> 0 < width sz -> 0 < height sz ->
  (forall f, flag = Some f -> cv2.accepts f = true) ->
  numpy_resize cv2_interpolate img (Some sz) flag = Raise ValueError.
Proof.
  unfold single_channel. intros Hg Hw Hh Hf.
  assert (Hacc : cv2.accepts (match flag with
                              | Some f => f
                              | None => cv2.INTER_LANCZOS4
                              end) = true).
  { destruct flag as [f |]; [exact (Hf f eq_refl) | reflexivity]. }
  unfold numpy_resize, cv2_resize. cbn [subscript bind]. cbv zeta.
  rewrite Hacc. cbn [negb].
  replace ((width sz <=? 0) || (height sz <=? 0)) with false
    by (symmetry; apply orb_false_iff; split; apply Z.leb_gt; assumption).
  destruct (shape img) as [| H [| W [| C [| ? ?]]]]; try contradiction.
  - destruct Hg as [HH HW].
    replace (H =? 0)%nat with false by (symmetry; apply Nat.eqb_neq; lia).
    replace (W =? 0)%nat with false by (symmetry; apply Nat.eqb_neq; lia).
    reflexivity.
  - destruct Hg as [HH [HW HC]]. subst C.
    replace (H =? 0)%nat with false by (symmetry; apply Nat.eqb_neq; lia).
    replace (W =? 0)%nat with false by (symmetry; apply Nat.eqb_neq; lia).
    reflexivity.
Qed.

End SingleChannel.

(** X13. [numpy_resize] cannot take a single-channel image: under the
    default flag or any flag OpenCV accepts, OpenCV returns a two-axis array
    for it and the transpose to channel-first raises [ValueError].  So in
    [process_inner] with alignment off and a resample flag OpenCV accepts, a
    single-channel image anywhere behind valid images makes the whole call
    raise [ValueError]; the channel assertion does not see it. *)
Theorem X13_single_channel_rejected
  (cv2_interpolate : Z -> ndarray -> nat -> nat -> list nat -> sample)
  (pad_value : pynum) (self : SuryaEncoderImageProcessor) (sz : Size) :
  0 < width sz -> 0 < height sz ->
  (forall img flag, single_channel img ->
     (forall f, flag = Some f -> cv2.accepts f = true) ->
     numpy_resize cv2_interpolate img (Some sz) flag = Raise ValueError)
  /\ (forall first pre gray post,
        max_size self = Some sz -> do_align_long_axis self = false ->
        cv2.accepts (resample self) = true ->
        Forall valid_image (first :: pre) -> single_channel gray ->
        process_inner cv2_interpolate pad_value self (first :: pre ++ gray :: post)
        = Raise ValueError).
Proof.
  intros Hw Hh. split.
  - intros img flag Hg Hf.
    exact (numpy_resize_single_channel cv2_interpolate img sz flag Hg Hw Hh Hf).
  - intros first pre gray post Hsz Hflag Hacc Hv Hg.
    assert (Hf : forall f, Some (resample self) = Some f -> cv2.accepts f = true)
      by (intros f E; injection E as <-; exact Hacc).
    inversion Hv as [| ? ? Hv0 _]; subst.
    destruct (valid_image_shape first Hv0) as [H [W [Hs _]]].
    unfold process_inner, getitem. cbn [nth_error bind]. rewrite Hs.
    cbn [nth_error bind Nat.eqb assert].
    unfold align_images. rewrite Hflag. cbn [bind].
    unfold resize_images. rewrite Hsz.
    destruct (mapM_total
                (fun img => numpy_resize cv2_interpolate img (Some sz) (Some (resample self)))
                valid_image (fun _ => True)
                (fun x Hx =>
                   match numpy_resize_valid_total cv2_interpolate x sz _ Hx Hw Hh Hacc with
                   | ex_intro _ r (conj E _) => ex_intro _ r (conj E I)
                   end)
                (first :: pre) Hv) as [ys [Hy _]].
    change (first :: pre ++ gray :: post) with ((first :: pre) ++ gray :: post).
    rewrite (mapM_app_raise _ (first :: pre) post gray ys ValueError Hy
               (numpy_resize_single_channel cv2_interpolate gray sz _ Hg Hw Hh Hf)).
    reflexivity.
Qed.

Lemma X13_witness :
  numpy_resize nearest gray_1x1 (Some square_2x2) (Some cv2.INTER_LINEAR)
  = Raise ValueError
  /\ process_inner nearest white (default_processor square_2x2 false)
       [rgb_1x1; rgb_1x1; gray_1x1; rgb_1x1] = Raise ValueError.
Proof.
  split.
  - refine (proj1 (X13_single_channel_rejected nearest white
                     (default_processor square_2x2 false) square_2x2 _ _)
              gray_1x1 (Some cv2.INTER_LINEAR) _ _).
    + reflexivity.
    + reflexivity.
    + cbv. repeat split; lia.
    + intros f E. injection E as <-. reflexivity.
  - refine (proj2 (X13_single_channel_rejected nearest white
                     (default_processor square_2x2 false) square_2x2 _ _)
              rgb_1x1 [rgb_1x1] gray_1x1 [rgb_1x1] eq_refl eq_refl eq_refl _ _).
    + reflexivity.
    + reflexivity.
    + repeat apply Forall_cons; try apply Forall_nil; cbv; repeat split; lia.
    + cbv. repeat split; lia.
Defined.

(** *** Alignment is a rotation before the ordinary pipeline *)

(** X14. Under a landscape target, processing a valid image with the
    alignment enabled is processing the aligner's result with the alignment
    disabled: same output, same exception. *)
Theorem X14_alignment_then_pipeline
  (cv2_interpolate : Z -> ndarray -> nat -> nat -> list nat -> sample)
  (pad_value : pynum) (self : SuryaEncoderImageProcessor) (sz : Size)
  (img : ndarray) :
  max_size self = Some sz -> height sz < width sz -> valid_image img ->
  exists a,
    align_long_axis img (Some sz) = Ok a
    /\ process_inner cv2_interpolate pad_value (with_alignment true self) [img]
       = process_inner cv2_interpolate pad_value (with_alignment false self) [a].
Proof.
  intros Hsz Hl Hv.
  destruct (align_long_axis_landscape img sz Hl Hv) as [a [Ea [Hva Hwa]]].
  exists a. split; [exact Ea |].
  rewrite (process_inner_valid_eq _ _ (with_alignment true self) [img]);
    [| discriminate | constructor; [exact Hv | constructor]].
  rewrite (process_inner_valid_eq _ _ (with_alignment false self) [a]);
    [| discriminate | constructor; [exact Hva | constructor]].
  assert (E1 : align_images (with_alignment true self) [img] = Ok [a]).
  { unfold align_images, with_alignment. cbn [do_align_long_axis max_size mapM].
    rewrite Hsz, Ea. cbn [bind forM_].
    rewrite (wide_check_eq a (valid_image_ndim a Hva)), Hwa. reflexivity. }
  rewrite E1. reflexivity.
Qed.

Lemma X14_witness :
  exists a,
    align_long_axis tall_2x1 (Some landscape_2x1) = Ok a
    /\ process_inner nearest white
         (with_alignment true (default_processor landscape_2x1 false)) [tall_2x1]
       = process_inner nearest white
           (with_alignment false (default_processor landscape_2x1 false)) [a].
Proof.
  refine (X14_alignment_then_pipeline nearest white
            (default_processor landscape_2x1 false) landscape_2x1 tall_2x1 eq_refl _ _).
  - reflexivity.
  - cbv. repeat split; lia.
Defined.
